(** * H2OGPT Conversation integration: a shallow embedding

    The development follows the two source files of the integration:

    - [config_flow.py]: [check_connection], [validate_input] and
      [ConfigFlow.async_step_user];
    - [__init__.py]: [async_setup_entry], [_call_h2o_gpt_api],
      [answer_question_using_context] and [H2OGPTAgent.async_process].

    Python values are an inductive type, exceptions are values of a sum
    type, and the stateful agent is written in a small state-and-exception
    monad over a store that keeps Python's list objects apart from the
    references to them, so that aliasing is visible. *)

From Stdlib Require Import ZArith Ascii String List Lia.
From stdpp Require Import base option list strings gmap fin_maps pretty.

Set Warnings "-register-all".
Local Open Scope string_scope.
Local Open Scope list_scope.
Local Open Scope nat_scope.

(** ** Python values *)

Module Py.

(** The fragment of Python's data values the integration handles: the
    message records, the keyword mapping sent to the server and the
    structures [ast.literal_eval] builds.  A [PyDict] keeps its items in
    insertion order, as a Python [dict] does. *)
Inductive pyval : Type :=
| PyNone
| PyBool (b : bool)
| PyInt (z : Z)
| PyStr (s : string)
| PyList (l : list pyval)
| PyTuple (l : list pyval)
| PyDict (items : list (pyval * pyval)).

(** The double quote character and a string wrapped in a pair of them. *)
Definition dquote : ascii := ascii_of_nat 34.
Definition newline : ascii := ascii_of_nat 10.
Definition dq (s : string) : string :=
  String dquote (s +:+ String dquote EmptyString).

(** [x == y] between a value and a string key.  Only a [str] compares
    equal to a [str]. *)
Definition eq_str (v : pyval) (k : string) : bool :=
  match v with
  | PyStr s => String.eqb s k
  | _ => false
  end.

(** Item lookup in a dict whose keys are pairwise different. *)
Fixpoint dict_get (items : list (pyval * pyval)) (k : string) : option pyval :=
  match items with
  | [] => None
  | (k', v) :: rest => if eq_str k' k then Some v else dict_get rest k
  end.

(** *** Exceptions

    The classes the two files name or can meet, each with its nearest base
    class among them. *)
Inductive exn_class : Type :=
| Exception
| TypeError
| ValueError
| SyntaxError
| KeyError
| OSError
| URLError                 (* urllib.error.URLError *)
| RequestException         (* requests.exceptions.RequestException *)
| HTTPError                (* requests.exceptions.HTTPError *)
| ConnectionError          (* requests.exceptions.ConnectionError *)
| ConnectTimeout           (* requests.exceptions.ConnectTimeout *)
| MissingSchema            (* requests.exceptions.MissingSchema *)
| ConfigEntryNotReady.     (* homeassistant.exceptions *)

Global Instance exn_class_eq_dec : EqDecision exn_class.
Proof. solve_decision. Defined.

Definition base_class (c : exn_class) : option exn_class :=
  match c with
  | Exception => None
  | TypeError | ValueError | SyntaxError | KeyError | OSError
  | ConfigEntryNotReady => Some Exception
  | URLError | RequestException => Some OSError
  | HTTPError | ConnectionError | MissingSchema => Some RequestException
  | ConnectTimeout => Some ConnectionError
  end.

(** [issubclass c d], walking up the base classes; the hierarchy above is
    four levels deep. *)
Fixpoint issubclass_fuel (fuel : nat) (c d : exn_class) : bool :=
  if decide (c = d) then true
  else match fuel, base_class c with
       | S fuel', Some b => issubclass_fuel fuel' b d
       | _, _ => false
       end.

Definition issubclass (c d : exn_class) : bool := issubclass_fuel 5 c d.

(** A raised exception: its class and [str(err)]. *)
Record exn : Type := mkExn { exn_cls : exn_class; exn_str : string }.

Definition isinstance (e : exn) (c : exn_class) : bool :=
  issubclass (exn_cls e) c.

(** The value of an expression: a result or a raised exception. *)
Definition result (A : Type) : Type := A + exn.

(** [obj[key]] for a string key, as the interpreter evaluates it on the
    values above.  [str(KeyError(k))] is the [repr] of the key. *)
Definition getitem_str (repr_str : string → string) (v : pyval) (k : string)
  : result pyval :=
  match v with
  | PyDict items =>
      match dict_get items k with
      | Some x => inl x
      | None => inr (mkExn KeyError (repr_str k))
      end
  | PyList _ =>
      inr (mkExn TypeError "list indices must be integers or slices, not str")
  | PyTuple _ =>
      inr (mkExn TypeError "tuple indices must be integers or slices, not str")
  | PyStr _ =>
      inr (mkExn TypeError "string indices must be integers, not 'str'")
  | PyInt _ => inr (mkExn TypeError "'int' object is not subscriptable")
  | PyBool _ => inr (mkExn TypeError "'bool' object is not subscriptable")
  | PyNone => inr (mkExn TypeError "'NoneType' object is not subscriptable")
  end.

End Py.

(** ** Library functions of Python the integration calls *)

Module PyLib.
Import Py.

(** *** [str.format]

    A format string is a sequence of literal characters and replacement
    fields; [{{] and [}}] stand for a literal brace.  Only plain named
    fields are read here, which is all [prompt_template] contains. *)
Inductive segment : Type :=
| Lit (c : ascii)
| Field (name : string).

Fixpoint format_scan (s : string) (field : option string)
  : option (list segment) :=
  match s, field with
  | EmptyString, None => Some []
  | EmptyString, Some _ => None
  | String c rest, Some name =>
      if Ascii.eqb c "}" then cons (Field name) <$> format_scan rest None
      else if Ascii.eqb c "{" then None
      else format_scan rest (Some (name +:+ String c EmptyString))
  | String c rest, None =>
      if Ascii.eqb c "{" then
        match rest with
        | String c' rest' =>
            if Ascii.eqb c' "{" then cons (Lit "{") <$> format_scan rest' None
            else format_scan rest (Some EmptyString)
        | EmptyString => None
        end
      else if Ascii.eqb c "}" then
        match rest with
        | String c' rest' =>
            if Ascii.eqb c' "}" then cons (Lit "}") <$> format_scan rest' None
            else None
        | EmptyString => None
        end
      else cons (Lit c) <$> format_scan rest None
  end.

Fixpoint kwarg (kwargs : list (string * string)) (name : string)
  : option string :=
  match kwargs with
  | [] => None
  | (k, v) :: rest => if String.eqb k name then Some v else kwarg rest name
  end.

(** The substituted text is copied, never scanned again.  A field without
    a keyword argument raises [KeyError]. *)
Fixpoint format_fill (repr_str : string → string) (segs : list segment)
    (kwargs : list (string * string)) : result string :=
  match segs with
  | [] => inl EmptyString
  | Lit c :: rest =>
      match format_fill repr_str rest kwargs with
      | inl tail => inl (String c tail)
      | inr e => inr e
      end
  | Field name :: rest =>
      match kwarg kwargs name with
      | None => inr (mkExn KeyError (repr_str name))
      | Some v =>
          match format_fill repr_str rest kwargs with
          | inl tail => inl (v +:+ tail)
          | inr e => inr e
          end
      end
  end.

(** [str.format] with keyword arguments; a template that does not scan raises
    [ValueError]. *)
Definition format (repr_str : string → string) (template : string)
    (kwargs : list (string * string)) : result string :=
  match format_scan template None with
  | Some segs => format_fill repr_str segs kwargs
  | None => inr (mkExn ValueError "invalid format string")
  end.

(** *** [str] and [repr] of a value

    [repr] of a [str] is taken as a parameter: CPython picks the quote and
    escapes by code point class, which needs the Unicode database. *)
Section Repr.
Variable repr_str : string → string.

Definition join (sep : string) (parts : list string) : string :=
  match parts with
  | [] => EmptyString
  | p :: ps => fold_left (λ acc x, acc +:+ sep +:+ x) ps p
  end.

Fixpoint repr (v : pyval) : string :=
  match v with
  | PyNone => "None"
  | PyBool true => "True"
  | PyBool false => "False"
  | PyInt z => pretty z
  | PyStr s => repr_str s
  | PyList l => "[" +:+ join ", " (map repr l) +:+ "]"
  | PyTuple [x] => "(" +:+ repr x +:+ ",)"
  | PyTuple l => "(" +:+ join ", " (map repr l) +:+ ")"
  | PyDict items =>
      "{" +:+ join ", " (map (λ kv, repr kv.1 +:+ ": " +:+ repr kv.2) items)
          +:+ "}"
  end.

(** [str(x)] is [repr(x)] except on a [str], which it returns. *)
Definition str (v : pyval) : string :=
  match v with
  | PyStr s => s
  | _ => repr v
  end.
End Repr.

(** [repr] of a [str] on ASCII text, after CPython's [unicode_repr]: single
    quotes unless the text has a single quote and no double quote; the
    quote and the backslash are escaped, tab, newline and carriage return
    get their letter, other control characters a [\x] escape. *)
Definition hex_digit (n : nat) : ascii :=
  if (n <? 10)%nat then ascii_of_nat (48 + n) else ascii_of_nat (87 + n).

Definition has_char (c : ascii) (s : string) : bool :=
  existsb (Ascii.eqb c) (list_ascii_of_string s).

Definition repr_char (quote c : ascii) : string :=
  let n := nat_of_ascii c in
  if Ascii.eqb c quote || Ascii.eqb c "\" then String "\"%char (String c EmptyString)
  else if (n =? 9)%nat then "\t"
  else if (n =? 10)%nat then "\n"
  else if (n =? 13)%nat then "\r"
  else if (n <? 32)%nat || (n =? 127)%nat then
    String "\"%char (String "x"%char (String (hex_digit (n / 16))
                              (String (hex_digit (n mod 16)) EmptyString)))
  else String c EmptyString.

Definition repr_ascii (s : string) : string :=
  let quote : ascii :=
    if has_char "'"%char s && negb (has_char dquote s) then dquote
    else "'"%char in
  String quote
    (String.concat EmptyString (map (repr_char quote) (list_ascii_of_string s))
     +:+ String quote EmptyString).

End PyLib.

(** ** [ast.literal_eval]

    The standard library's parser is not part of the integration.  It is
    modelled on a fragment of the literal syntax: on a text of the fragment
    the value is computed; a text that holds a name other than [True],
    [False], [None] (and [set], which [literal_eval] accepts in [set()]) is
    no literal in any reading, so an exception is certain; every other text
    is left to a parameter. *)

Module Literal.
Import Py.

Inductive token : Type :=
| TLBrace | TRBrace | TLBrack | TRBrack | TColon | TComma
| TStr (s : string)
| TInt (z : Z)
| TTrue | TFalse | TNone.

Inductive lexed : Type :=
| Tokens (ts : list token)
| BadName
| Unread.

Inductive mode : Type :=
| Start
| AfterEmpty (q : ascii)          (* just closed an empty string *)
| InStr (q : ascii) (acc : string)
| InNum (acc : string)
| InName (acc : string).

Inductive outcome : Type :=
| Go (emit : list token) (next : mode)
| Stop (r : lexed).

Definition is_digit (c : ascii) : bool :=
  let n := nat_of_ascii c in (48 <=? n)%nat && (n <=? 57)%nat.

Definition is_name_start (c : ascii) : bool :=
  let n := nat_of_ascii c in
  ((65 <=? n)%nat && (n <=? 90)%nat) || ((97 <=? n)%nat && (n <=? 122)%nat)
  || (n =? 95)%nat.

Definition is_name_char (c : ascii) : bool := is_name_start c || is_digit c.

Definition is_quote (c : ascii) : bool :=
  Ascii.eqb c "'" || Ascii.eqb c dquote.

(** A character allowed inside a string: no backslash, no control
    character. *)
Definition is_plain (c : ascii) : bool :=
  let n := nat_of_ascii c in
  (32 <=? n)%nat && negb (n =? 127)%nat && negb (Ascii.eqb c "\").

Definition snoc (s : string) (c : ascii) : string := s +:+ String c EmptyString.

Definition digit_value (c : ascii) : Z := Z.of_nat (nat_of_ascii c - 48).

(** A decimal integer of at most 18 digits, without a leading zero unless
    it is the single digit [0]. *)
Definition number_token (digits : string) : option token :=
  match digits with
  | EmptyString => None
  | String c rest =>
      if Ascii.eqb c "0" && negb (String.eqb rest EmptyString) then None
      else if (18 <? String.length digits)%nat then None
      else Some (TInt (fold_left (λ acc d, 10 * acc + digit_value d)%Z
                                 (list_ascii_of_string digits) 0%Z))
  end.

Definition name_token (name : string) : outcome :=
  if String.eqb name "True" then Go [TTrue] Start
  else if String.eqb name "False" then Go [TFalse] Start
  else if String.eqb name "None" then Go [TNone] Start
  else if String.eqb name "set" then Stop Unread
  else Stop BadName.

Definition start_char (c : ascii) : outcome :=
  if Ascii.eqb c " " || (nat_of_ascii c =? 9)%nat then Go [] Start
  else if Ascii.eqb c "{" then Go [TLBrace] Start
  else if Ascii.eqb c "}" then Go [TRBrace] Start
  else if Ascii.eqb c "[" then Go [TLBrack] Start
  else if Ascii.eqb c "]" then Go [TRBrack] Start
  else if Ascii.eqb c ":" then Go [TColon] Start
  else if Ascii.eqb c "," then Go [TComma] Start
  else if is_quote c then Go [] (InStr c EmptyString)
  else if is_digit c then Go [] (InNum (String c EmptyString))
  else if is_name_start c then Go [] (InName (String c EmptyString))
  else Stop Unread.

(** A finished number or name is emitted in front of what the next
    character starts. *)
Definition emit_then (o : outcome) (c : ascii) : outcome :=
  match o with
  | Go ts _ =>
      match start_char c with
      | Go ts' m => Go (ts ++ ts') m
      | Stop r => Stop r
      end
  | Stop r => Stop r
  end.

Definition step (m : mode) (c : ascii) : outcome :=
  match m with
  | Start => start_char c
  | AfterEmpty q => if Ascii.eqb c q then Stop Unread else start_char c
  | InStr q acc =>
      if Ascii.eqb c q then
        Go [TStr acc]
           (if String.eqb acc EmptyString then AfterEmpty q else Start)
      else if is_plain c then Go [] (InStr q (snoc acc c))
      else Stop Unread
  | InNum acc =>
      if is_digit c then Go [] (InNum (snoc acc c))
      else if is_name_start c || Ascii.eqb c "." then Stop Unread
      else match number_token acc with
           | Some t => emit_then (Go [t] Start) c
           | None => Stop Unread
           end
  | InName acc =>
      if is_name_char c then Go [] (InName (snoc acc c))
      else if is_quote c then Stop Unread
      else emit_then (name_token acc) c
  end.

Definition finish (m : mode) : lexed :=
  match m with
  | Start | AfterEmpty _ => Tokens []
  | InStr _ _ => Unread
  | InNum acc =>
      match number_token acc with
      | Some t => Tokens [t]
      | None => Unread
      end
  | InName acc =>
      match name_token acc with
      | Go ts _ => Tokens ts
      | Stop r => r
      end
  end.

Definition emit (ts : list token) (r : lexed) : lexed :=
  match r with
  | Tokens ts' => Tokens (ts ++ ts')
  | other => other
  end.

Fixpoint lex (s : string) (m : mode) : lexed :=
  match s with
  | EmptyString => finish m
  | String c rest =>
      match step m c with
      | Stop r => r
      | Go ts m' => emit ts (lex rest m')
      end
  end.

(** Keys a dict literal may have here: the hashable atoms.  Python compares
    [True] and [1] (and [False] and [0]) equal. *)
Definition key_code (v : pyval) : option (Z + string + unit) :=
  match v with
  | PyInt z => Some (inl (inl z))
  | PyBool b => Some (inl (inl (if b then 1 else 0)%Z))
  | PyStr s => Some (inl (inr s))
  | PyNone => Some (inr tt)
  | _ => None
  end.

Definition key_eqb (a b : pyval) : bool :=
  match key_code a, key_code b with
  | Some x, Some y => bool_decide (x = y)
  | _, _ => false
  end.

Fixpoint distinct_keys (items : list (pyval * pyval)) : bool :=
  match items with
  | [] => true
  | (k, _) :: rest =>
      negb (existsb (λ kv, key_eqb k kv.1) rest) && distinct_keys rest
  end.

(** Recursive descent over the tokens.  [fuel] bounds the number of calls
    and [depth] the nesting of brackets, which CPython bounds too. *)
Fixpoint parse (fuel depth : nat) (ts : list token) {struct fuel}
  : option (pyval * list token) :=
  match fuel with
  | O => None
  | S fuel' =>
      match ts with
      | TStr s :: r => Some (PyStr s, r)
      | TInt z :: r => Some (PyInt z, r)
      | TTrue :: r => Some (PyBool true, r)
      | TFalse :: r => Some (PyBool false, r)
      | TNone :: r => Some (PyNone, r)
      | TLBrack :: TRBrack :: r => Some (PyList [], r)
      | TLBrace :: TRBrace :: r => Some (PyDict [], r)
      | TLBrack :: r =>
          match depth with
          | O => None
          | S depth' =>
              '(vs, r') ← parse_elems fuel' depth' r; Some (PyList vs, r')
          end
      | TLBrace :: r =>
          match depth with
          | O => None
          | S depth' =>
              '(items, r') ← parse_items fuel' depth' r;
              if distinct_keys items then Some (PyDict items, r') else None
          end
      | _ => None
      end
  end
with parse_elems (fuel depth : nat) (ts : list token) {struct fuel}
  : option (list pyval * list token) :=
  match fuel with
  | O => None
  | S fuel' =>
      '(v, r) ← parse fuel' depth ts;
      match r with
      | TRBrack :: r' => Some ([v], r')
      | TComma :: TRBrack :: r' => Some ([v], r')
      | TComma :: r' =>
          '(vs, r'') ← parse_elems fuel' depth r'; Some (v :: vs, r'')
      | _ => None
      end
  end
with parse_items (fuel depth : nat) (ts : list token) {struct fuel}
  : option (list (pyval * pyval) * list token) :=
  match fuel with
  | O => None
  | S fuel' =>
      '(k, r) ← parse fuel' depth ts;
      match key_code k, r with
      | Some _, TColon :: r0 =>
          '(v, r1) ← parse fuel' depth r0;
          match r1 with
          | TRBrace :: r' => Some ([(k, v)], r')
          | TComma :: TRBrace :: r' => Some ([(k, v)], r')
          | TComma :: r' =>
              '(items, r'') ← parse_items fuel' depth r'; Some ((k, v) :: items, r'')
          | _ => None
          end
      | _, _ => None
      end
  end.

(** What is known of [ast.literal_eval] on a text. *)
Inductive reading : Type :=
| Parsed (v : pyval)     (* the text is this literal *)
| Malformed              (* the text is no literal: an exception is raised *)
| Beyond.                (* the text is outside the fragment *)

Definition read (s : string) : reading :=
  match lex s Start with
  | Tokens ts =>
      match parse (S (length ts)) 64 ts with
      | Some (v, []) => Parsed v
      | _ => Beyond
      end
  | BadName => Malformed
  | Unread => Beyond
  end.

Section LiteralEval.
(** The exception raised on a text that is no literal ([SyntaxError] or
    [ValueError], with CPython's message), and the result on a text outside
    the fragment. *)
Variable literal_eval_raises : string → exn.
Variable literal_eval_beyond : string → result pyval.

Definition literal_eval (s : string) : result pyval :=
  match read s with
  | Parsed v => inl v
  | Malformed => inr (literal_eval_raises s)
  | Beyond => literal_eval_beyond s
  end.
End LiteralEval.

End Literal.

Import Py PyLib Literal.

(** ** The integration *)

(** *** Objects of the host platform and of the client library *)

(** [homeassistant.config_entries.ConfigEntry]: the persisted configuration
    the platform hands to the integration. *)
Record ConfigEntry : Type := mkEntry {
  entry_id : string;
  data : gmap string string;
  options : gmap string string;
}.

(** The part of [HomeAssistant] the integration touches: [hass.data] under
    the integration's domain, and the conversation agents registered per
    entry ([conversation.async_set_agent]). *)
Record HomeAssistant : Type := mkHass {
  hass_data : gmap string (gmap string string);
  agents : gmap string ConfigEntry;
}.

(** [homeassistant.data_entry_flow.FlowResult], as the two constructors the
    flow uses build it.  [errors] is [None] when the argument is not
    given. *)
Inductive FlowResult : Type :=
| async_show_form (step_id : string) (errors : option (gmap string string))
| async_create_entry (title : string) (entry_data : gmap string string).

(** [requests.Response], of which only the status is read. *)
Record Response : Type := mkResponse { status_code : Z }.

(** What can be handed to [functools.partial]: a data value or a function
    object.  Only the latter is callable. *)
Inductive pyobj : Type :=
| Data (v : pyval)
| Function (name : string).

Definition callable (o : pyobj) : bool :=
  match o with
  | Function _ => true
  | Data _ => false
  end.

Record partial_obj : Type := mkPartial {
  func : pyobj;
  keywords : list (string * pyval);
}.

(** [functools.partial(func, **keywords)]. *)
Definition partial (f : pyobj) (kw : list (string * pyval))
  : result partial_obj :=
  if callable f then inl (mkPartial f kw)
  else inr (mkExn TypeError "the first argument must be callable").

(** [homeassistant.helpers.intent.IntentResponse]. *)
Inductive IntentResponseErrorCode : Type :=
| NO_INTENT_MATCH | NO_VALID_TARGETS | FAILED_TO_HANDLE | UNKNOWN.

Inductive intent_content : Type :=
| Speech (speech : pyval)
| Error (code : IntentResponseErrorCode) (message : string).

Record IntentResponse : Type := mkIntentResponse {
  language : string;
  content : option intent_content;
}.

Definition new_IntentResponse (lang : string) : IntentResponse :=
  mkIntentResponse lang None.

Definition async_set_speech (r : IntentResponse) (speech : pyval)
  : IntentResponse :=
  mkIntentResponse (language r) (Some (Speech speech)).

Definition async_set_error (r : IntentResponse)
    (code : IntentResponseErrorCode) (message : string) : IntentResponse :=
  mkIntentResponse (language r) (Some (Error code message)).

(** [conversation.ConversationInput] and [conversation.ConversationResult]. *)
Record ConversationInput : Type := mkInput {
  text : string;
  input_conversation_id : option string;
  input_language : string;
}.

Record ConversationResult : Type := mkResult {
  response : IntentResponse;
  conversation_id : string;
}.

(** [GradioClient]: one object per server connection; [predict] answers a
    request with the server's text or raises. *)
Record GradioClient : Type := mkClient {
  predict_fn : string → string → result string;
}.

(** *** The agent's store and its monad

    [H2OGPTAgent.history] maps a conversation id to a list object.  A list
    object lives in [heap] and is named by its address, so two references to
    one list see each other's [append].  [ulid_count] counts the identifiers
    minted so far and [rpc_log] records the requests sent to the server, in
    order. *)
Record store : Type := mkStore {
  history : gmap string nat;
  heap : gmap nat (list pyval);
  next_loc : nat;
  ulid_count : nat;
  rpc_log : list (string * string);     (* api_name, argument *)
}.

(** A freshly constructed agent: [self.history = {}]. *)
Definition init : store := mkStore ∅ ∅ 0 0 [].

(** A computation reads and updates the store and returns or raises. *)
Definition M (A : Type) : Type := store → result A * store.

Definition ret {A} (a : A) : M A := λ s, (inl a, s).
Definition raise {A} (e : exn) : M A := λ s, (inr e, s).
Definition lift {A} (r : result A) : M A := λ s, (r, s).

Definition bind {A B} (m : M A) (k : A → M B) : M B :=
  λ s, match m s with
       | (inl a, s') => k a s'
       | (inr e, s') => (inr e, s')
       end.

Declare Scope m_scope.
Delimit Scope m_scope with M.
Notation "x <- c1 ;; c2" := (bind c1 (λ x, c2))
  (at level 100, c1 at next level, right associativity) : m_scope.
Notation "c1 ;; c2" := (bind c1 (λ _, c2))
  (at level 100, right associativity) : m_scope.

(** A [try] block: the outcome of [m], with the store as [m] left it. *)
Definition try {A} (m : M A) : M (result A) :=
  λ s, let '(r, s') := m s in (inl r, s').

(** [hass.async_add_executor_job(job)] followed by [await]: the job runs on
    a worker thread and its result, or its exception, comes back to the
    caller. *)
Definition async_add_executor_job {A} (job : M A) : M A := job.

(** The store after each elementary update. *)
Definition minted (s : store) : store :=
  mkStore (history s) (heap s) (next_loc s) (S (ulid_count s)) (rpc_log s).

Definition allocated (s : store) (l : list pyval) : store :=
  mkStore (history s) (<[next_loc s := l]> (heap s)) (S (next_loc s))
          (ulid_count s) (rpc_log s).

Definition appended (s : store) (m : nat) (v : pyval) : store :=
  mkStore (history s) (alter (λ l, (l ++ [v])%list) m (heap s)) (next_loc s)
          (ulid_count s) (rpc_log s).

Definition recorded (s : store) (cid : string) (m : nat) : store :=
  mkStore (<[cid := m]> (history s)) (heap s) (next_loc s) (ulid_count s)
          (rpc_log s).

Definition logged (s : store) (rq : string * string) : store :=
  mkStore (history s) (heap s) (next_loc s) (ulid_count s)
          (rpc_log s ++ [rq])%list.

(** [ulid.ulid()], the [k]-th identifier of the generator being
    [ulid_of k]. *)
Definition ulid (ulid_of : nat → string) : M string :=
  λ s, (inl (ulid_of (ulid_count s)), minted s).

(** A list display [[x, ...]] makes a new list object. *)
Definition list_new (l : list pyval) : M nat :=
  λ s, (inl (next_loc s), allocated s l).

(** [messages.append(v)] on the list object at [m]. *)
Definition list_append (m : nat) (v : pyval) : M unit :=
  λ s, (inl tt, appended s m v).

(** [self.history[cid] = m]. *)
Definition history_set (cid : string) (m : nat) : M unit :=
  λ s, (inl tt, recorded s cid m).

Definition get_history : M (gmap string nat) := λ s, (inl (history s), s).

(** [client.predict(arg, api_name=...)]: one request to the server. *)
Definition predict (client : GradioClient) (arg api_name : string) : M string :=
  λ s, (predict_fn client arg api_name, logged s (api_name, arg)).

(** The messages stored for a conversation id: the contents of the list
    object [self.history] refers to. *)
Definition stored (s : store) (cid : string) : option (list pyval) :=
  m ← history s !! cid; heap s !! m.

(** [d[k]] on a [dict] with string keys and values. *)
Definition getitem (repr_str : string → string) (d : gmap string string)
    (k : string) : result string :=
  match d !! k with
  | Some v => inl v
  | None => inr (mkExn KeyError (repr_str k))
  end.

(** The message records of [async_process]. *)
Definition message (role content : string) : pyval :=
  PyDict [(PyStr "role", PyStr role); (PyStr "content", PyStr content)].

(** *** Sample objects

    A configuration entry, servers and clients on which the functions
    below are evaluated. *)
Module Sample.

Definition host_key : string := "host_url".
Definition prompt_key : string := "prompt_context".
Definition default_prompt : string := "You are a helpful assistant.".
Definition domain : string := "h2ogpt_conversation".
Definition url : string := "http://h2ogpt.local:7860".

Definition entry : ConfigEntry := mkEntry "entry-1" (<[host_key := url]> ∅) ∅.
Definition hass : HomeAssistant := mkHass ∅ ∅.

(** An entry whose data lacks the host URL. *)
Definition blank_entry : ConfigEntry := mkEntry "entry-2" ∅ ∅.
Definition form : gmap string string := <[host_key := url]> ∅.

(** A server that answers every request with the same text, and one that
    cannot be reached when the client is constructed. *)
Definition replying (answer : string) : string → result GradioClient :=
  λ _, inl (mkClient (λ _ _, inl answer)).
Definition unreachable : string → result GradioClient :=
  λ _, inr (mkExn OSError "[Errno 111] Connection refused").

Definition hello : string := "{" +:+ dq "response" +:+ ": " +:+ dq "hello" +:+ "}".
Definition hi_there : string :=
  "{" +:+ dq "response" +:+ ": " +:+ dq "hi there" +:+ "}".

(** The host behind the URL: answering with a status, refusing the
    connection, and a URL that [requests] rejects before it connects. *)
Definition answering (status : Z) : string → result Response :=
  λ _, inl (mkResponse status).
Definition refusing : string → result Response :=
  λ _, inr (mkExn ConnectionError "Max retries exceeded with url: /").
Definition rejecting : string → result Response :=
  λ _, inr (mkExn MissingSchema "Invalid URL: No scheme supplied.").

Definition raises : string → exn :=
  λ _, mkExn SyntaxError "invalid syntax (<unknown>, line 1)".
Definition beyond : string → result pyval :=
  λ _, inr (mkExn ValueError "malformed node or string").
Definition calling : string → list (string * pyval) → result pyval :=
  λ _ _, inl PyNone.

Definition hi : ConversationInput := mkInput "hi" None "en".
Definition again (cid : string) : ConversationInput :=
  mkInput "again" (Some cid) "en".

(** An entry whose options hold a prompt context, one whose options hold
    something else, and a second entry with a host URL. *)
Definition brief_entry : ConfigEntry :=
  mkEntry "entry-1" (<[host_key := url]> ∅) (<[prompt_key := "Be brief."]> ∅).
Definition odd_entry : ConfigEntry :=
  mkEntry "entry-1" (<[host_key := url]> ∅) (<["language" := "en"]> ∅).
Definition other_entry : ConfigEntry :=
  mkEntry "entry-3" (<[host_key := "http://other.local:7860"]> ∅) ∅.

(** The options form filled in with a prompt context. *)
Definition brief_options : gmap string string :=
  <[prompt_key := "Be brief."]> ∅.

(** An answer whose [response] item is a role/content record. *)
Definition record_answer : string :=
  "{'response': {'role': 'assistant', 'content': 'x'}}".

(** A server whose request fails. *)
Definition failing : string → result GradioClient :=
  λ _, inl (mkClient (λ _ _, inr (mkExn OSError "timed out"))).

End Sample.

Section Integration.

(** [const.py]: the names under which the entry keeps the host URL and the
    prompt context, the built-in prompt context and the integration's
    domain. *)
Variable CONF_HOST_URL CONF_PROMPT_CONTEXT DEFAULT_PROMPT_CONTEXT DOMAIN : string.

(** The interpreter and the libraries: [repr] of a [str], the two
    parameters of [ast.literal_eval] and the identifier generator. *)
Variable repr_str : string → string.
Variable literal_eval_raises : string → exn.
Variable literal_eval_beyond : string → result pyval.
Variable ulid_of : nat → string.

(** **** [config_flow.py] *)

(** The network as [requests.get] sees it: a response, or the exception
    [requests] raises when none arrives. *)
Variable requests_get : string → result Response.

(** Calling a function object with keyword arguments. *)
Variable call_function : string → list (string * pyval) → result pyval.

Definition check_connection (host_url : string) : result pyval :=
  match requests_get host_url with
  | inr e => inr e
  | inl response =>
      if (status_code response =? 200)%Z
      then inl (PyStr "Connection to API successful!")
      else inr (mkExn HTTPError EmptyString)
  end.

(** The job handed to the executor is called there. *)
Definition run_job (job : partial_obj) : result pyval :=
  match func job with
  | Function name => call_function name (keywords job)
  | Data _ => inr (mkExn TypeError "object is not callable")
  end.

(** [validate_input]: the argument of [partial] is the value of the call
    [check_connection(data[CONF_HOST_URL])], which is evaluated first. *)
Definition validate_input (input_data : gmap string string) : result unit :=
  match getitem repr_str input_data CONF_HOST_URL with
  | inr e => inr e
  | inl host_url =>
      match check_connection host_url with
      | inr e => inr e
      | inl checked =>
          match partial (Data checked) [("request_timeout", PyInt 10)] with
          | inr e => inr e
          | inl job =>
              match run_job job with
              | inr e => inr e
              | inl _ => inl tt
              end
          end
      end
  end.

Definition async_step_user (user_input : option (gmap string string))
  : result FlowResult :=
  match user_input with
  | None => inl (async_show_form "user" None)
  | Some input_data =>
      match validate_input input_data with
      | inr e =>
          if isinstance e HTTPError then
            inl (async_show_form "user"
                   (Some (<["base" := "cannot_connect"]> ∅)))
          else if isinstance e Exception then
            inl (async_show_form "user" (Some (<["base" := "unknown"]> ∅)))
          else inr e
      | inl _ => inl (async_create_entry "H2OGPT Conversation" input_data)
      end
  end.

(** **** [__init__.py] *)

Definition async_setup_entry (hass : HomeAssistant) (entry : ConfigEntry)
  : result bool * HomeAssistant :=
  let checked :=
    match getitem repr_str (data entry) CONF_HOST_URL with
    | inr e => inr e
    | inl host_url => check_connection host_url
    end in
  match checked with
  | inr err =>
      if isinstance err URLError then (inl false, hass)
      else if isinstance err Exception then
        (inr (mkExn ConfigEntryNotReady (exn_str err)), hass)
      else (inr err, hass)
  | inl _ =>
      match getitem repr_str (data entry) CONF_HOST_URL with
      | inr e => (inr e, hass)
      | inl host_url =>
          let domain_data := default ∅ (hass_data hass !! DOMAIN) in
          (inl true,
           mkHass (<[DOMAIN := <[entry_id entry := host_url]> domain_data]>
                     (hass_data hass))
                  (<[entry_id entry := entry]> (agents hass)))
      end
  end.

Definition _call_h2o_gpt_api (client : GradioClient) (prompt : string)
  : M string :=
  let kwargs :=
    PyDict [(PyStr "stream_output", PyBool false);
            (PyStr "max_time", PyInt 360);
            (PyStr "instruction_nochat", PyStr prompt)] in
  predict client (str repr_str kwargs) "/submit_nochat_api".

Definition triple_quote : string :=
  String dquote (String dquote (String dquote EmptyString)).

Definition prompt_template : string :=
  String newline triple_quote +:+ String newline "{context}"
  +:+ String newline triple_quote +:+ String newline "{question}"
  +:+ String newline EmptyString.

Definition answer_question_using_context (client : GradioClient)
    (question context : string) : M pyval :=
  (prompt <- lift (format repr_str prompt_template
                     [("context", context); ("question", question)]) ;;
   answer <- _call_h2o_gpt_api client prompt ;;
   parsed <- lift (literal_eval literal_eval_raises literal_eval_beyond answer) ;;
   lift (getitem_str repr_str parsed "response"))%M.

(** [H2OGPTAgent.async_process].  [new_client] is the constructor of
    [GradioClient]; it connects to the server and can fail. *)
Definition async_process (entry : ConfigEntry)
    (new_client : string → result GradioClient)
    (user_input : ConversationInput) : M ConversationResult :=
  (client <- async_add_executor_job
               (host_url <- lift (getitem repr_str (data entry) CONF_HOST_URL) ;;
                lift (new_client host_url)) ;;
   let raw_prompt_context :=
     default DEFAULT_PROMPT_CONTEXT (options entry !! CONF_PROMPT_CONTEXT) in
   self_history <- get_history ;;
   let new_session :=
     (id <- ulid ulid_of ;;
      m <- list_new [message "system" raw_prompt_context] ;;
      ret (id, m)) in
   session <-
     match input_conversation_id user_input with
     | Some id =>
         match self_history !! id with
         | Some m => ret (id, m)
         | None => new_session
         end
     | None => new_session
     end ;;
   let '(cid, messages) := session in
   list_append messages (message "user" (text user_input)) ;;
   outcome <- try (async_add_executor_job
                     (answer_question_using_context client (text user_input)
                        raw_prompt_context)) ;;
   match outcome with
   | inr err =>
       if isinstance err Exception then
         ret (mkResult
                (async_set_error
                   (new_IntentResponse (input_language user_input)) UNKNOWN
                   ("Sorry, I had a problem talking to H2OGPT: "
                    +:+ exn_str err))
                cid)
       else raise err
   | inl result =>
       list_append messages result ;;
       history_set cid messages ;;
       ret (mkResult
              (async_set_speech
                 (new_IntentResponse (input_language user_input)) result)
              cid)
   end)%M.

(** **** Runs of the agent *)

(** The prompt of a question in a context, written out. *)
Definition prompt_of (context question : string) : string :=
  String newline triple_quote +:+ String newline context
  +:+ String newline triple_quote +:+ String newline question
  +:+ String newline EmptyString.

(** The request [_call_h2o_gpt_api] sends for a prompt. *)
Definition request_of (prompt : string) : string * string :=
  ("/submit_nochat_api",
   str repr_str (PyDict [(PyStr "stream_output", PyBool false);
                         (PyStr "max_time", PyInt 360);
                         (PyStr "instruction_nochat", PyStr prompt)])).

(** The outcome of the remote interaction of one call; the store only
    records the request. *)
Definition remote_result (client : GradioClient) (question context : string)
  : result pyval :=
  (answer_question_using_context client question context init).1.

(** The construction of the client in [async_process]. *)
Definition client_of (entry : ConfigEntry)
    (new_client : string → result GradioClient) : result GradioClient :=
  match getitem repr_str (data entry) CONF_HOST_URL with
  | inr e => inr e
  | inl host_url => new_client host_url
  end.

(** [entry.options.get(CONF_PROMPT_CONTEXT, DEFAULT_PROMPT_CONTEXT)]. *)
Definition prompt_context (entry : ConfigEntry) : string :=
  default DEFAULT_PROMPT_CONTEXT (options entry !! CONF_PROMPT_CONTEXT).

(** One call of the host's dispatcher: the entry as it is configured at
    that time, the state of the server behind the client's constructor, and
    the utterance. *)
Record call : Type := mkCall {
  call_entry : ConfigEntry;
  call_client : string → result GradioClient;
  call_input : ConversationInput;
}.

Definition process (c : call) : M ConversationResult :=
  async_process (call_entry c) (call_client c) (call_input c).

(** The calls of a run with what each returned, and the store at the
    end.  The calls are made one at a time: a call is completed before the
    next one begins. *)
Fixpoint run (calls : list call) (s : store)
  : list (call * result ConversationResult) * store :=
  match calls with
  | [] => ([], s)
  | c :: rest =>
      let '(r, s') := process c s in
      let '(log, s'') := run rest s' in
      ((c, r) :: log, s'')
  end.

(** A call that answered with speech for conversation [cid], and one that
    answered with the error reply. *)
Definition spoke (cid : string) (cr : call * result ConversationResult)
  : option pyval :=
  match cr.2 with
  | inl res =>
      match content (response res) with
      | Some (Speech v) =>
          if String.eqb (conversation_id res) cid then Some v else None
      | _ => None
      end
  | inr _ => None
  end.

Definition failed (cid : string) (cr : call * result ConversationResult)
  : bool :=
  match cr.2 with
  | inl res =>
      match content (response res) with
      | Some (Error _ _) => String.eqb (conversation_id res) cid
      | _ => false
      end
  | inr _ => false
  end.

Definition successes (cid : string)
    (log : list (call * result ConversationResult)) : nat :=
  length (filter (λ cr, is_Some (spoke cid cr)) log).

Definition failures (cid : string)
    (log : list (call * result ConversationResult)) : nat :=
  length (filter (λ cr, failed cid cr = true) log).

(** What a call leaves in the list of conversation [cid]. *)
Definition entries (cid : string) (cr : call * result ConversationResult)
  : list pyval :=
  match spoke cid cr with
  | Some v => [message "user" (text (call_input cr.1)); v]
  | None =>
      if failed cid cr then [message "user" (text (call_input cr.1))] else []
  end.

Definition transcript (cid : string)
    (log : list (call * result ConversationResult)) : list pyval :=
  flat_map (entries cid) log.

(** The exchanges of the successful calls of a conversation, in order. *)
Definition exchanges (cid : string)
    (log : list (call * result ConversationResult)) : list pyval :=
  flat_map (λ cr, match spoke cid cr with
                  | Some v => [message "user" (text (call_input cr.1)); v]
                  | None => []
                  end) log.

(** The session a call resumes: the presented id and its list object, when
    the id is a key of [self.history]. *)
Definition known (s : store) (user_input : ConversationInput)
  : option (string * nat) :=
  id ← input_conversation_id user_input;
  m ← history s !! id;
  Some (id, m).

(** The two replies of [async_process]. *)
Definition speech_reply (user_input : ConversationInput) (v : pyval)
    (cid : string) : ConversationResult :=
  mkResult (mkIntentResponse (input_language user_input) (Some (Speech v))) cid.

Definition error_reply (user_input : ConversationInput) (err : exn)
    (cid : string) : ConversationResult :=
  mkResult
    (mkIntentResponse (input_language user_input)
       (Some (Error UNKNOWN
                ("Sorry, I had a problem talking to H2OGPT: " +:+ exn_str err))))
    cid.

(** The session of a call, with the store in which the user message is
    appended: the resumed session, or a minted id and a new list holding
    the system message. *)
Definition session_of (s : store) (entry : ConfigEntry)
    (user_input : ConversationInput) : string * nat * store :=
  match known s user_input with
  | Some (id, m) => (id, m, s)
  | None =>
      (ulid_of (ulid_count s), next_loc s,
       allocated (minted s) [message "system" (prompt_context entry)])
  end.

(** The stores the agent can be in: every conversation has a list object of
    its own, and every conversation id was minted by the generator. *)
Record wf (s : store) : Prop := mkWf {
  wf_alloc : ∀ cid m, history s !! cid = Some m →
               m < next_loc s ∧ is_Some (heap s !! m);
  wf_apart : ∀ c1 c2 m, history s !! c1 = Some m → history s !! c2 = Some m →
               c1 = c2;
  wf_minted : ∀ cid, is_Some (history s !! cid) →
               ∃ k, k < ulid_count s ∧ cid = ulid_of k;
}.

(** A role/content record and a bare string. *)
Definition is_record (v : pyval) : bool :=
  match v with
  | PyDict [(PyStr "role", PyStr _); (PyStr "content", PyStr _)] => true
  | _ => false
  end.

Definition is_bare_string (v : pyval) : bool :=
  match v with
  | PyStr _ => true
  | _ => false
  end.

(** The two ways a failed setup ends. *)
Definition not_ready (r : result bool) : Prop :=
  ∃ msg, r = inr (mkExn ConfigEntryNotReady msg).

Definition fatal (r : result bool) : Prop :=
  r = inl false ∨ ∃ e, r = inr e ∧ exn_cls e ≠ ConfigEntryNotReady.

(** **** The rest of the two files *)

(** [async_unload_entry].  [hass.data[DOMAIN]] and [pop] on it raise
    [KeyError] when the key is missing; [conversation.async_unset_agent]
    forgets the agent of the entry, if there is one. *)
Definition async_unload_entry (hass : HomeAssistant) (entry : ConfigEntry)
  : result bool * HomeAssistant :=
  match hass_data hass !! DOMAIN with
  | None => (inr (mkExn KeyError (repr_str DOMAIN)), hass)
  | Some domain_data =>
      match domain_data !! entry_id entry with
      | None => (inr (mkExn KeyError (repr_str (entry_id entry))), hass)
      | Some _ =>
          (inl true,
           mkHass (<[DOMAIN := delete (entry_id entry) domain_data]>
                     (hass_data hass))
                  (delete (entry_id entry) (agents hass)))
      end
  end.

(** One item of the options schema: [vol.Optional(key, description =
    {"suggested_value": ...}, default = ...)] with a [TemplateSelector]. *)
Record OptionField : Type := mkField {
  field_key : string;
  suggested_value : string;
  field_default : string;
}.

(** The results of the options flow: the form with its schema, or the
    entry that holds the options. *)
Inductive OptionsFlowResult : Type :=
| options_show_form (step_id : string) (data_schema : list OptionField)
| options_create_entry (title : string) (entry_data : gmap string string).

Definition DEFAULT_OPTIONS : gmap string string :=
  <[CONF_PROMPT_CONTEXT := DEFAULT_PROMPT_CONTEXT]> ∅.

(** [h2ogpt_conversation_config_option_schema]: an empty mapping is
    replaced by the default options; [options[CONF_PROMPT_CONTEXT]] raises
    [KeyError] when the key is missing. *)
Definition h2ogpt_conversation_config_option_schema
    (opts : gmap string string) : result (list OptionField) :=
  let opts := if bool_decide (opts = ∅) then DEFAULT_OPTIONS else opts in
  match getitem repr_str opts CONF_PROMPT_CONTEXT with
  | inr e => inr e
  | inl suggested =>
      inl [mkField CONF_PROMPT_CONTEXT suggested DEFAULT_PROMPT_CONTEXT]
  end.

(** [OptionsFlow.async_step_init] for the entry [config_entry]. *)
Definition async_step_init (config_entry : ConfigEntry)
    (user_input : option (gmap string string)) : result OptionsFlowResult :=
  match user_input with
  | Some input_data =>
      inl (options_create_entry "H2OGPT Conversation" input_data)
  | None =>
      match h2ogpt_conversation_config_option_schema (options config_entry) with
      | inr e => inr e
      | inl schema => inl (options_show_form "init" schema)
      end
  end.

(** The platform keeps the data of the entry an options flow creates as
    the options of the configuration entry. *)
Definition with_options (entry : ConfigEntry) (r : OptionsFlowResult)
  : ConfigEntry :=
  match r with
  | options_create_entry _ entry_data =>
      mkEntry (entry_id entry) (data entry) entry_data
  | options_show_form _ _ => entry
  end.

(** Whether the client of a call is constructed. *)
Definition connects (c : call) : bool :=
  match client_of (call_entry c) (call_client c) with
  | inl _ => true
  | inr _ => false
  end.

(** The generator never repeats an identifier. *)
Hypothesis ulid_inj : ∀ j k, ulid_of j = ulid_of k → j = k.

(** *** Properties of the library model *)

Lemma isinstance_Exception (e : exn) : isinstance e Exception = true.
Proof. destruct e as [[] msg]; reflexivity. Qed.

Lemma append_assoc (a b c : string) : (a +:+ b) +:+ c = a +:+ b +:+ c.
Proof.
  induction a as [|x a IH]; [reflexivity|].
  change (String x ((a +:+ b) +:+ c) = String x (a +:+ b +:+ c)).
  by rewrite IH.
Qed.

Lemma format_prompt (context question : string) :
  format repr_str prompt_template
    [("context", context); ("question", question)]
  = inl (prompt_of context question).
Proof. reflexivity. Qed.

(** *** The remote interaction *)

Lemma call_api_eq (client : GradioClient) (prompt : string) (s : store) :
  _call_h2o_gpt_api client prompt s
  = (predict_fn client (request_of prompt).2 "/submit_nochat_api",
     logged s (request_of prompt)).
Proof. reflexivity. Qed.

Lemma answer_eq (client : GradioClient) (question context : string) (s : store) :
  answer_question_using_context client question context s
  = (remote_result client question context,
     logged s (request_of (prompt_of context question))).
Proof.
  unfold remote_result, answer_question_using_context.
  unfold bind at 1 3. unfold lift at 1 4.
  rewrite format_prompt. unfold bind, lift.
  rewrite !call_api_eq.
  destruct (predict_fn client _ _) as [answer|e]; [|reflexivity].
  destruct (literal_eval _ _ answer) as [parsed|e]; [|reflexivity].
  destruct (getitem_str repr_str parsed "response"); reflexivity.
Qed.

(** *** One call of [async_process], equationally *)

Lemma async_process_raises entry new_client user_input s e :
  client_of entry new_client = inr e →
  async_process entry new_client user_input s = (inr e, s).
Proof.
  unfold client_of, async_process, async_add_executor_job. intros Hc.
  unfold bind at 1 2. unfold lift at 1.
  destruct (getitem repr_str (data entry) CONF_HOST_URL) as [url|e'].
  - unfold lift at 1. rewrite Hc. reflexivity.
  - congruence.
Qed.

Lemma async_process_eq entry new_client user_input s client :
  client_of entry new_client = inl client →
  async_process entry new_client user_input s
  = let '(cid, m, s0) := session_of s entry user_input in
    let s1 := logged (appended s0 m (message "user" (text user_input)))
                (request_of (prompt_of (prompt_context entry) (text user_input))) in
    match remote_result client (text user_input) (prompt_context entry) with
    | inr err => (inl (error_reply user_input err cid), s1)
    | inl v =>
        (inl (speech_reply user_input v cid), recorded (appended s1 m v) cid m)
    end.
Proof.
  unfold client_of, async_process, async_add_executor_job. intros Hc.
  fold (prompt_context entry).
  unfold bind at 1 2. unfold lift at 1.
  destruct (getitem repr_str (data entry) CONF_HOST_URL) as [url|e']; [|congruence].
  unfold lift at 1. rewrite Hc.
  unfold bind at 1. unfold get_history at 1.
  unfold session_of, known.
  assert (Hstep : ∀ cid m s0,
    (list_append m (message "user" (text user_input));;
     outcome <- try (answer_question_using_context client (text user_input)
                       (prompt_context entry));;
     match outcome with
     | inl result =>
         list_append m result;; history_set cid m;;
         ret (mkResult (async_set_speech
                          (new_IntentResponse (input_language user_input)) result)
                cid)
     | inr err =>
         if isinstance err Exception
         then ret (mkResult
                     (async_set_error
                        (new_IntentResponse (input_language user_input)) UNKNOWN
                        ("Sorry, I had a problem talking to H2OGPT: "
                         +:+ exn_str err)) cid)
         else raise err
     end)%M s0
    = match remote_result client (text user_input) (prompt_context entry) with
      | inr err =>
          (inl (error_reply user_input err cid),
           logged (appended s0 m (message "user" (text user_input)))
             (request_of (prompt_of (prompt_context entry) (text user_input))))
      | inl v =>
          (inl (speech_reply user_input v cid),
           recorded
             (appended
                (logged (appended s0 m (message "user" (text user_input)))
                   (request_of (prompt_of (prompt_context entry) (text user_input))))
                m v) cid m)
      end).
  { intros cid m s0. unfold bind at 1. unfold list_append at 1.
    unfold bind at 1. unfold try. rewrite answer_eq.
    destruct (remote_result client _ _) as [v|err].
    - reflexivity.
    - rewrite isinstance_Exception. reflexivity. }
  destruct (input_conversation_id user_input) as [id|]; simpl.
  - destruct (history s !! id) as [m|]; simpl.
    + unfold bind at 1. unfold ret at 1. apply Hstep.
    + unfold bind at 1 2. unfold ulid at 1. unfold bind at 1.
      unfold list_new at 1. unfold ret at 1. apply Hstep.
  - unfold bind at 1 2. unfold ulid at 1. unfold bind at 1.
    unfold list_new at 1. unfold ret at 1. apply Hstep.
Qed.

(** *** The messages stored after one call *)

Lemma known_Some s user_input id m :
  known s user_input = Some (id, m) ↔
  input_conversation_id user_input = Some id ∧ history s !! id = Some m.
Proof.
  unfold known. destruct (input_conversation_id user_input) as [id'|]; simpl.
  - destruct (history s !! id') as [m'|] eqn:Hm; simpl; split.
    + intros [= -> ->]. done.
    + intros [[= ->] Hh]. rewrite Hm in Hh. congruence.
    + done.
    + intros [[= ->] Hh]. congruence.
  - split; [done|]. intros [? _]. done.
Qed.

Lemma known_unknown s user_input id :
  input_conversation_id user_input = Some id → history s !! id = None →
  known s user_input = None.
Proof. unfold known. intros ->. simpl. by intros ->. Qed.

Lemma fresh_not_stored s :
  wf s → history s !! ulid_of (ulid_count s) = None.
Proof.
  intros Hwf. destruct (history s !! ulid_of (ulid_count s)) as [m|] eqn:Hm; [|done].
  destruct (wf_minted s Hwf (ulid_of (ulid_count s))) as (k & Hk & Heq); [by eexists|].
  apply ulid_inj in Heq. lia.
Qed.

Lemma stored_Some s cid l :
  stored s cid = Some l ↔ ∃ m, history s !! cid = Some m ∧ heap s !! m = Some l.
Proof.
  unfold stored. destruct (history s !! cid) as [m|]; simpl.
  - split; [by eexists|]. by intros (m' & [= ->] & ?).
  - split; [done|]. by intros (m' & ? & ?).
Qed.

Lemma stored_None_history s cid :
  wf s → stored s cid = None → history s !! cid = None.
Proof.
  intros Hwf. unfold stored. destruct (history s !! cid) as [m|] eqn:Hm; [|done].
  simpl. destruct (wf_alloc s Hwf cid m Hm) as [_ [l Hl]]. rewrite Hl. done.
Qed.

(** The list of a resumed session after the user message, and after the
    reply, and the lists of the other sessions. *)
Lemma resumed_step s id m l user rq :
  wf s → history s !! id = Some m → heap s !! m = Some l →
  let s1 := logged (appended s m user) rq in
  wf s1 ∧ history s1 = history s ∧ ulid_count s1 = ulid_count s
  ∧ stored s1 id = Some (l ++ [user])
  ∧ (∀ cid, cid ≠ id → stored s1 cid = stored s cid)
  ∧ ∀ v, let s2 := recorded (appended s1 m v) id m in
      wf s2 ∧ history s2 = history s ∧ ulid_count s2 = ulid_count s
      ∧ stored s2 id = Some (l ++ [user; v])
      ∧ (∀ cid, cid ≠ id → stored s2 cid = stored s cid).
Proof.
  intros Hwf Hid Hl. simpl.
  assert (Hother : ∀ cid m', cid ≠ id → history s !! cid = Some m' → m' ≠ m).
  { intros cid m' Hne Hc ->. apply Hne. eapply wf_apart; eauto. }
  assert (Hins : <[id := m]> (history s) = history s) by by apply insert_id.
  split_and!.
  - destruct Hwf as [Ha Hp Hm]. split; simpl; [|done..].
    intros cid m' Hc. destruct (Ha cid m' Hc) as [? [l' Hl']]. split; [done|].
    rewrite lookup_alter. case_decide; subst; rewrite Hl'; by eexists.
  - done.
  - done.
  - unfold stored; simpl. rewrite Hid; simpl. rewrite lookup_alter.
    rewrite decide_True by done. by rewrite Hl.
  - intros cid Hne. unfold stored; simpl.
    destruct (history s !! cid) as [m'|] eqn:Hc; [|done]. simpl.
    rewrite lookup_alter, decide_False; [done|]. intros ->. by eapply Hother.
  - intros v. simpl. rewrite Hins. split_and!.
    + destruct Hwf as [Ha Hp Hm]. split; simpl; rewrite ?Hins; [|done..].
      intros cid m' Hc. destruct (Ha cid m' Hc) as [? [l' Hl']]. split; [done|].
      rewrite !lookup_alter. repeat case_decide; subst; rewrite Hl'; by eexists.
    + done.
    + done.
    + unfold stored; simpl. rewrite Hins, Hid; simpl. rewrite !lookup_alter.
      rewrite !decide_True by done. rewrite Hl. simpl. by rewrite <- app_assoc.
    + intros cid Hne. unfold stored; simpl. rewrite Hins.
      destruct (history s !! cid) as [m'|] eqn:Hc; [|done]. simpl.
      rewrite !lookup_alter, !decide_False; [done|..]; intros ->; by eapply Hother.
Qed.

(** The same for a session that starts: nothing is stored for the minted
    id until the reply is there. *)
Lemma started_step s sys user rq :
  wf s →
  let id := ulid_of (ulid_count s) in
  let m := next_loc s in
  let s1 := logged (appended (allocated (minted s) [sys]) m user) rq in
  stored s id = None
  ∧ wf s1 ∧ history s1 = history s ∧ ulid_count s1 = S (ulid_count s)
  ∧ (∀ cid, stored s1 cid = stored s cid)
  ∧ ∀ v, let s2 := recorded (appended s1 m v) id m in
      wf s2 ∧ history s2 = <[id := m]> (history s)
      ∧ ulid_count s2 = S (ulid_count s)
      ∧ stored s2 id = Some [sys; user; v]
      ∧ (∀ cid, cid ≠ id → stored s2 cid = stored s cid).
Proof.
  intros Hwf. simpl.
  pose proof (fresh_not_stored s Hwf) as Hfresh.
  assert (Hlt : ∀ cid m', history s !! cid = Some m' → next_loc s ≠ m').
  { intros cid m' Hc. destruct (wf_alloc s Hwf cid m' Hc). lia. }
  assert (Hsame : ∀ cid, stored (logged (appended (allocated (minted s) [sys])
                                           (next_loc s) user) rq) cid
                         = stored s cid).
  { intros cid. unfold stored; simpl.
    destruct (history s !! cid) as [m'|] eqn:Hc; [|done]. simpl.
    rewrite lookup_alter, decide_False by (by eapply Hlt).
    rewrite lookup_insert_ne; [done|]. by eapply Hlt. }
  split_and!.
  - unfold stored. by rewrite Hfresh.
  - destruct Hwf as [Ha Hp Hm]. split; simpl.
    + intros cid m' Hc. destruct (Ha cid m' Hc) as [? [l' Hl']]. split; [lia|].
      rewrite lookup_alter, decide_False by lia.
      rewrite lookup_insert_ne by lia. by eexists.
    + done.
    + intros cid Hc. destruct (Hm cid Hc) as (k & ? & ?). exists k. split; [lia|done].
  - done.
  - done.
  - done.
  - intros v. simpl. split_and!.
    + destruct Hwf as [Ha Hp Hm]. split; simpl.
      * intros cid m' Hc. rewrite lookup_insert in Hc. case_decide.
        -- injection Hc as <-. split; [lia|].
           rewrite !lookup_alter, !decide_True by done.
           rewrite lookup_insert_eq. by eexists.
        -- destruct (Ha cid m' Hc) as [? [l' Hl']]. split; [lia|].
           rewrite !lookup_alter, !decide_False by lia.
           rewrite lookup_insert_ne by lia. by eexists.
      * intros c1 c2 m' H1 H2. rewrite lookup_insert in H1, H2.
        repeat case_decide; simplify_eq; try done.
        -- exfalso. by eapply Hlt.
        -- exfalso. by eapply Hlt.
        -- by eapply Hp.
      * intros cid Hc. rewrite lookup_insert in Hc. case_decide.
        -- subst. exists (ulid_count s). split; [lia|done].
        -- destruct (Hm cid Hc) as (k & ? & ?). exists k. split; [lia|done].
    + done.
    + done.
    + unfold stored; simpl. rewrite lookup_insert_eq; simpl.
      rewrite !lookup_alter, !decide_True by done.
      rewrite lookup_insert_eq. done.
    + intros cid Hne. unfold stored; simpl. rewrite lookup_insert_ne by done.
      destruct (history s !! cid) as [m'|] eqn:Hc; [|done]. simpl.
      rewrite !lookup_alter, !decide_False by (by eapply Hlt).
      rewrite lookup_insert_ne; [done|]. by eapply Hlt.
Qed.

(** What one call does to the messages stored for every conversation. *)
Lemma spoke_speech c user_input v cid cid' :
  spoke cid' (c, inl (speech_reply user_input v cid))
  = if String.eqb cid cid' then Some v else None.
Proof. reflexivity. Qed.

Lemma spoke_error c user_input err cid cid' :
  spoke cid' (c, inl (error_reply user_input err cid)) = None.
Proof. reflexivity. Qed.

Lemma failed_speech c user_input v cid cid' :
  failed cid' (c, inl (speech_reply user_input v cid)) = false.
Proof. reflexivity. Qed.

Lemma failed_error c user_input err cid cid' :
  failed cid' (c, inl (error_reply user_input err cid)) = String.eqb cid cid'.
Proof. reflexivity. Qed.

Lemma process_step (c : call) (s : store) :
  wf s →
  let r := (process c s).1 in
  let s' := (process c s).2 in
  wf s' ∧ ulid_count s ≤ ulid_count s'
  ∧ (∀ res, r = inl res →
       ∃ k, k < ulid_count s' ∧ conversation_id res = ulid_of k)
  ∧ (∀ res, r = inl res → stored s (conversation_id res) = None →
       conversation_id res = ulid_of (ulid_count s))
  ∧ ∀ cid, stored s' cid =
      match stored s cid with
      | Some l => Some (l ++ entries cid (c, r))
      | None =>
          match spoke cid (c, r) with
          | Some v => Some [message "system" (prompt_context (call_entry c));
                            message "user" (text (call_input c)); v]
          | None => None
          end
      end.
Proof.
  intros Hwf. destruct c as [entry new_client user_input]. unfold process. simpl.
  destruct (client_of entry new_client) as [client|e] eqn:Hc.
  2:{ rewrite (async_process_raises _ _ _ _ _ Hc). simpl.
      split_and!; [done|lia|done|done|].
      intros cid. unfold entries, spoke, failed. simpl.
      destruct (stored s cid); [by rewrite app_nil_r|done]. }
  rewrite (async_process_eq _ _ _ _ _ Hc). unfold session_of.
  destruct (known s user_input) as [[id m]|] eqn:Hk.
  - apply known_Some in Hk as [Hin Hid].
    destruct (wf_alloc s Hwf id m Hid) as [_ [l Hl]].
    destruct (resumed_step s id m l (message "user" (text user_input))
                (request_of (prompt_of (prompt_context entry) (text user_input)))
                Hwf Hid Hl) as (Hwf1 & Hh1 & Hu1 & Hs1 & Ho1 & Hrep).
    assert (Hst : stored s id = Some l) by (apply stored_Some; eauto).
    assert (Hminted : ∃ k, k < ulid_count s ∧ id = ulid_of k)
      by (apply (wf_minted s Hwf); by eexists).
    destruct (remote_result client _ _) as [v|err]; simpl.
    + destruct (Hrep v) as (Hwf2 & Hh2 & Hu2 & Hs2 & Ho2).
      split_and!; [done|lia|..].
      * intros res [= <-]. simpl in *. destruct Hminted as (k & ? & ?).
        exists k. split; [lia|done].
      * intros res [= <-]. simpl. congruence.
      * intros cid. unfold entries. rewrite spoke_speech, failed_speech.
        destruct (String.eqb_spec id cid) as [<-|Hne].
        -- rewrite Hs2, Hst. done.
        -- rewrite Ho2 by done. destruct (stored s cid); [by rewrite app_nil_r|done].
    + split_and!; [done|lia|..].
      * intros res [= <-]. simpl in *. destruct Hminted as (k & ? & ?).
        exists k. split; [lia|done].
      * intros res [= <-]. simpl. congruence.
      * intros cid. unfold entries. rewrite spoke_error, failed_error.
        destruct (String.eqb_spec id cid) as [<-|Hne].
        -- rewrite Hs1, Hst. done.
        -- rewrite Ho1 by done. destruct (stored s cid); [by rewrite app_nil_r|done].
  - destruct (started_step s (message "system" (prompt_context entry))
                (message "user" (text user_input))
                (request_of (prompt_of (prompt_context entry) (text user_input)))
                Hwf) as (Hfresh & Hwf1 & Hh1 & Hu1 & Hs1 & Hrep).
    destruct (remote_result client _ _) as [v|err]; simpl.
    + destruct (Hrep v) as (Hwf2 & Hh2 & Hu2 & Hs2 & Ho2).
      split_and!; [done|lia|..].
      * intros res [= <-]. simpl. exists (ulid_count s). split; [lia|done].
      * intros res [= <-]. done.
      * intros cid. unfold entries. rewrite spoke_speech, failed_speech.
        destruct (String.eqb_spec (ulid_of (ulid_count s)) cid) as [<-|Hne].
        -- rewrite Hs2, Hfresh. done.
        -- rewrite Ho2 by done. destruct (stored s cid); [by rewrite app_nil_r|done].
    + split_and!; [done|lia|..].
      * intros res [= <-]. simpl. exists (ulid_count s). split; [lia|done].
      * intros res [= <-]. done.
      * intros cid. unfold entries. rewrite spoke_error, failed_error.
        rewrite Hs1.
        destruct (String.eqb_spec (ulid_of (ulid_count s)) cid) as [<-|Hne].
        -- rewrite Hfresh. done.
        -- destruct (stored s cid); [by rewrite app_nil_r|done].
Qed.

(** *** Runs *)

Lemma run_snoc calls c s :
  run (calls ++ [c]) s
  = ((run calls s).1 ++ [(c, (process c (run calls s).2).1)],
     (process c (run calls s).2).2).
Proof.
  revert s. induction calls as [|c0 calls IH]; intros s; simpl.
  - destruct (process c s). reflexivity.
  - destruct (process c0 s) as [r0 s0]. rewrite IH.
    destruct (run calls s0) as [log s1]. reflexivity.
Qed.

Lemma wf_init : wf init.
Proof.
  split; simpl.
  - intros cid m H. by rewrite lookup_empty in H.
  - intros c1 c2 m H. by rewrite lookup_empty in H.
  - intros cid [m H]. by rewrite lookup_empty in H.
Qed.

Lemma transcript_snoc cid log cr :
  transcript cid (log ++ [cr]) = transcript cid log ++ entries cid cr.
Proof. unfold transcript. rewrite flat_map_app. simpl. by rewrite app_nil_r. Qed.

Lemma spoke_not_failed cid cr : is_Some (spoke cid cr) → failed cid cr = false.
Proof.
  unfold spoke, failed. destruct cr as [c [res|e]]; simpl; [|by intros []].
  destruct (content (response res)) as [[v|code msg]|]; by try intros [].
Qed.

Lemma transcript_length cid log :
  length (transcript cid log) = 2 * successes cid log + failures cid log.
Proof.
  unfold transcript, successes, failures.
  induction log as [|cr log IH]; [done|]. simpl.
  rewrite length_app, IH, !filter_cons. unfold entries.
  destruct (spoke cid cr) as [v|] eqn:Hs.
  - rewrite decide_True by by eexists.
    rewrite (spoke_not_failed cid cr) by (rewrite Hs; by eexists).
    rewrite decide_False by done. simpl. lia.
  - rewrite decide_False by by intros [].
    destruct (failed cid cr); [rewrite decide_True by done|rewrite decide_False by done];
      simpl; lia.
Qed.

Lemma transcript_exchanges cid log :
  failures cid log = 0 → transcript cid log = exchanges cid log.
Proof.
  unfold transcript, exchanges, failures.
  induction log as [|cr log IH]; [done|]. rewrite filter_cons. simpl.
  destruct (failed cid cr) eqn:Hf.
  - rewrite decide_True by done. done.
  - rewrite decide_False by done. intros H0. rewrite IH by done.
    unfold entries. rewrite Hf. by destruct (spoke cid cr).
Qed.

Lemma transcript_nil cid log :
  (∀ cr, cr ∈ log → spoke cid cr = None ∧ failed cid cr = false) →
  transcript cid log = [].
Proof.
  unfold transcript. induction log as [|cr log IH]; [done|]. intros H. simpl.
  destruct (H cr) as [Hs Hf]; [by left|].
  unfold entries at 1. rewrite Hs, Hf. simpl. apply IH.
  intros cr' Hin. apply H. by right.
Qed.

Lemma failed_inv cid c r :
  failed cid (c, r) = true → ∃ res, r = inl res ∧ conversation_id res = cid.
Proof.
  unfold failed. simpl. destruct r as [res|e]; [|done]. intros H. exists res.
  split; [done|]. destruct (content (response res)) as [[?|? ?]|]; try done.
  by apply String.eqb_eq.
Qed.

(** Along every run from a fresh agent, the list of a stored conversation
    is its system message followed by what its calls left, in order. *)
Lemma run_invariant calls :
  let log := (run calls init).1 in
  let s := (run calls init).2 in
  wf s
  ∧ (∀ c res, (c, inl res) ∈ log →
       ∃ k, k < ulid_count s ∧ conversation_id res = ulid_of k)
  ∧ ∀ cid, match stored s cid with
           | Some l => ∃ context, l = message "system" context :: transcript cid log
           | None => ∀ cr, cr ∈ log → spoke cid cr = None
           end.
Proof.
  induction calls as [|c calls IH] using rev_ind; simpl.
  - split_and!; [apply wf_init| |].
    + intros c res Hin. by apply elem_of_nil in Hin.
    + intros cid. unfold stored, init; simpl. rewrite lookup_empty. simpl.
      intros cr Hin. by apply elem_of_nil in Hin.
  - rewrite run_snoc. simpl. simpl in IH.
    destruct (run calls init) as [log s]. simpl in *.
    destruct IH as (Hwf & Hids & Hst).
    destruct (process_step c s Hwf) as (Hwf' & Hle & Hnew & Hfresh & Hstep).
    destruct (process c s) as [r s']. simpl in *.
    split_and!; [done| |].
    + intros c0 res [Hin|Hin]%elem_of_app.
      * destruct (Hids c0 res Hin) as (k & ? & ?). exists k. split; [lia|done].
      * apply list_elem_of_singleton in Hin. injection Hin as -> Hr.
        apply Hnew. by symmetry.
    + intros cid. rewrite Hstep. specialize (Hst cid).
      destruct (stored s cid) as [l|] eqn:Hl.
      * destruct Hst as [context ->]. exists context.
        by rewrite transcript_snoc.
      * destruct (spoke cid (c, r)) as [v|] eqn:Hv.
        -- exists (prompt_context (call_entry c)). rewrite transcript_snoc.
           assert (Hres : ∃ res, r = inl res ∧ conversation_id res = cid).
           { unfold spoke in Hv. simpl in Hv. destruct r as [res|e]; [|done].
             exists res. split; [done|].
             destruct (content (response res)) as [[?|? ?]|]; try done.
             destruct (String.eqb_spec (conversation_id res) cid); done. }
           destruct Hres as (res & -> & Hcid).
           assert (Heq : cid = ulid_of (ulid_count s)).
           { rewrite <- Hcid. apply Hfresh; [done|]. by rewrite Hcid. }
           assert (Hempty : transcript cid log = []).
           { apply transcript_nil. intros [c0 r0] Hin. split; [by apply Hst|].
             destruct (failed cid (c0, r0)) eqn:Hf; [|done].
             apply failed_inv in Hf as (res0 & -> & Hcid0).
             destruct (Hids c0 res0 Hin) as (k & Hk & Hk').
             rewrite Hcid0, Heq in Hk'. apply ulid_inj in Hk'. lia. }
           rewrite Hempty. unfold entries. rewrite Hv. done.
        -- intros cr [Hin|Hin]%elem_of_app; [by apply Hst|].
           apply list_elem_of_singleton in Hin as ->. done.
Qed.

(** *** The setup wizard and the connection check *)

Lemma validate_input_raises input_data :
  ∃ e, validate_input input_data = inr e.
Proof.
  unfold validate_input.
  destruct (getitem repr_str input_data CONF_HOST_URL) as [url|e]; [|by eexists].
  destruct (check_connection url) as [checked|e]; [|by eexists].
  simpl. by eexists.
Qed.

Lemma async_step_user_shows_form user_input :
  ∃ errors, async_step_user user_input = inl (async_show_form "user" errors).
Proof.
  unfold async_step_user. destruct user_input as [input_data|]; [|by eexists].
  destruct (validate_input_raises input_data) as [e ->].
  destruct (isinstance e HTTPError); [by eexists|].
  rewrite isinstance_Exception. by eexists.
Qed.

Lemma getitem_Some d k v : d !! k = Some v → getitem repr_str d k = inl v.
Proof. unfold getitem. by intros ->. Qed.

(** C1 (the code at the failing input).  When the host answers the check
    with status 200, [validate_input] hands the text the check returned to
    [functools.partial], which raises [TypeError]; the wizard shows the form
    again with the error [unknown], and on no input does it create the
    entry. *)
Theorem C1_wizard_success_is_reported_unknown input_data host_url :
  input_data !! CONF_HOST_URL = Some host_url →
  requests_get host_url = inl (mkResponse 200) →
  check_connection host_url = inl (PyStr "Connection to API successful!")
  ∧ validate_input input_data
    = inr (mkExn TypeError "the first argument must be callable")
  ∧ async_step_user (Some input_data)
    = inl (async_show_form "user" (Some (<["base" := "unknown"]> ∅)))
  ∧ ∀ user_input title entry_data,
      async_step_user user_input ≠ inl (async_create_entry title entry_data).
Proof.
  intros Hurl Hget.
  assert (Hcheck : check_connection host_url
                   = inl (PyStr "Connection to API successful!")).
  { unfold check_connection. rewrite Hget. reflexivity. }
  assert (Hval : validate_input input_data
                 = inr (mkExn TypeError "the first argument must be callable")).
  { unfold validate_input. rewrite (getitem_Some _ _ _ Hurl), Hcheck. reflexivity. }
  split_and!; [done|done| |].
  - unfold async_step_user. rewrite Hval. reflexivity.
  - intros user_input title entry_data.
    destruct (async_step_user_shows_form user_input) as [errors ->]. congruence.
Qed.

(** C2 (amended).  [check_connection] returns its success text exactly when
    the GET yields a response with status 200.  Any other status is raised
    as [HTTPError], which the wizard reports as [cannot_connect].  A failure
    of the transport is the exception [requests.get] raised, passed on as it
    is: the wizard reports it as [cannot_connect] only if it is an
    [HTTPError], and as [unknown] otherwise. *)
Theorem C2_check_connection_signals host_url :
  ((∃ msg, check_connection host_url = inl msg)
   ↔ ∃ r, requests_get host_url = inl r ∧ status_code r = 200%Z)
  ∧ (∀ r, requests_get host_url = inl r → status_code r ≠ 200%Z →
       check_connection host_url = inr (mkExn HTTPError EmptyString)
       ∧ ∀ input_data, input_data !! CONF_HOST_URL = Some host_url →
           async_step_user (Some input_data)
           = inl (async_show_form "user"
                    (Some (<["base" := "cannot_connect"]> ∅))))
  ∧ (∀ e, requests_get host_url = inr e →
       check_connection host_url = inr e
       ∧ ∀ input_data, input_data !! CONF_HOST_URL = Some host_url →
           async_step_user (Some input_data)
           = inl (async_show_form "user"
                    (Some (<["base" := if isinstance e HTTPError
                                       then "cannot_connect" else "unknown"]> ∅)))).
Proof.
  split_and!.
  - unfold check_connection. split.
    + intros [msg H]. destruct (requests_get host_url) as [r|e]; [|done].
      exists r. split; [done|]. destruct (Z.eqb_spec (status_code r) 200); done.
    + intros (r & -> & ->). by eexists.
  - intros r Hget Hst.
    assert (Hcheck : check_connection host_url = inr (mkExn HTTPError EmptyString)).
    { unfold check_connection. rewrite Hget.
      destruct (Z.eqb_spec (status_code r) 200); done. }
    split; [done|]. intros input_data Hurl.
    unfold async_step_user, validate_input.
    rewrite (getitem_Some _ _ _ Hurl), Hcheck. reflexivity.
  - intros e Hget.
    assert (Hcheck : check_connection host_url = inr e).
    { unfold check_connection. by rewrite Hget. }
    split; [done|]. intros input_data Hurl.
    unfold async_step_user, validate_input.
    rewrite (getitem_Some _ _ _ Hurl), Hcheck.
    destruct (isinstance e HTTPError); [done|].
    by rewrite isinstance_Exception.
Qed.

(** C8 (amended).  At setup a reachability failure, such as status 503,
    leaves the integration inactive and raises [ConfigEntryNotReady], on
    which the platform retries later.  Every other exception of the
    validation that is not a [URLError] is signalled in the same way, also
    the [KeyError] of an entry without host URL; a [URLError] makes the
    setup return [False].  In each of these cases nothing is registered.
    With status 200 the setup returns [True] and registers the agent. *)
Theorem C8_setup_outcomes hass entry :
  (data entry !! CONF_HOST_URL = None →
   async_setup_entry hass entry
   = (inr (mkExn ConfigEntryNotReady (repr_str CONF_HOST_URL)), hass))
  ∧ ∀ host_url, data entry !! CONF_HOST_URL = Some host_url →
      (∀ r, requests_get host_url = inl r → status_code r ≠ 200%Z →
         async_setup_entry hass entry
         = (inr (mkExn ConfigEntryNotReady EmptyString), hass))
      ∧ (∀ e, requests_get host_url = inr e → isinstance e URLError = false →
           async_setup_entry hass entry
           = (inr (mkExn ConfigEntryNotReady (exn_str e)), hass))
      ∧ (∀ e, requests_get host_url = inr e → isinstance e URLError = true →
           async_setup_entry hass entry = (inl false, hass))
      ∧ (∀ r, requests_get host_url = inl r → status_code r = 200%Z →
           ∃ hass', async_setup_entry hass entry = (inl true, hass')
                    ∧ agents hass' !! entry_id entry = Some entry
                    ∧ (hass_data hass' !! DOMAIN) ≫= (.!! entry_id entry)
                      = Some host_url).
Proof.
  split.
  - intros Hnone. unfold async_setup_entry, getitem. rewrite Hnone. reflexivity.
  - intros host_url Hurl. unfold async_setup_entry, check_connection.
    rewrite (getitem_Some _ _ _ Hurl). split_and!.
    + intros r -> Hst. destruct (Z.eqb_spec (status_code r) 200); done.
    + intros e -> Hno. rewrite Hno, isinstance_Exception. done.
    + intros e -> Hyes. by rewrite Hyes.
    + intros r -> ->. simpl. eexists. split; [done|]. simpl.
      rewrite !lookup_insert_eq. simpl. by rewrite lookup_insert_eq.
Qed.

(** *** The conversation agent *)

(** C3 (amended).  When the remote interaction of a call fails, the call
    returns the error reply with the presented id of a stored session, or
    with the freshly minted id.  No reply is appended and the session map is
    unchanged.  The list of a stored session keeps its messages and gains
    the user message of the failed call, so it is one longer; nothing is
    stored under a minted id; every other session is as before. *)
Theorem C3_failed_call_keeps_user_message
    s entry new_client user_input client err :
  wf s →
  client_of entry new_client = inl client →
  remote_result client (text user_input) (prompt_context entry) = inr err →
  ∃ cid s',
    async_process entry new_client user_input s
    = (inl (error_reply user_input err cid), s')
    ∧ history s' = history s
    ∧ (∀ other, other ≠ cid → stored s' other = stored s other)
    ∧ match known s user_input with
      | Some (id, _) =>
          cid = id ∧ input_conversation_id user_input = Some id
          ∧ ∃ l, stored s id = Some l
                 ∧ stored s' id = Some (l ++ [message "user" (text user_input)])
                 ∧ length (l ++ [message "user" (text user_input)]) = S (length l)
      | None =>
          cid = ulid_of (ulid_count s)
          ∧ stored s cid = None ∧ stored s' cid = None
      end.
Proof.
  intros Hwf Hc Hr.
  rewrite (async_process_eq _ _ _ _ _ Hc), Hr. unfold session_of.
  destruct (known s user_input) as [[id m]|] eqn:Hk.
  - apply known_Some in Hk as [Hin Hid].
    destruct (wf_alloc s Hwf id m Hid) as [_ [l Hl]].
    destruct (resumed_step s id m l (message "user" (text user_input))
                (request_of (prompt_of (prompt_context entry) (text user_input)))
                Hwf Hid Hl) as (_ & Hh1 & _ & Hs1 & Ho1 & _).
    eexists _, _. split; [reflexivity|]. split_and!; [done|done|done|done|].
    exists l. split_and!; [apply stored_Some; eauto|done|].
    rewrite length_app. simpl. lia.
  - destruct (started_step s (message "system" (prompt_context entry))
                (message "user" (text user_input))
                (request_of (prompt_of (prompt_context entry) (text user_input)))
                Hwf) as (Hfresh & _ & Hh1 & _ & Hs1 & _).
    eexists _, _. split; [reflexivity|]. split_and!; [done| |done|done|].
    + intros other _. apply Hs1.
    + rewrite Hs1. done.
Qed.

(** C4 (amended).  A call with a conversation id that is not stored, whose
    remote interaction succeeds, adds exactly one session, under the minted
    id, whose list is the system message with the current prompt context,
    the user message and the reply.  Along every run of a fresh agent, the
    list of a stored conversation is its system message followed by what its
    calls left in order of arrival: its length is one, plus two for every
    successful call, plus one for every failed call; without a failed call
    it is the system message followed by the user message and the reply of
    each successful call in turn. *)
Theorem C4_new_session_and_list_length :
  (∀ s entry new_client user_input client v,
     wf s → known s user_input = None →
     client_of entry new_client = inl client →
     remote_result client (text user_input) (prompt_context entry) = inl v →
     ∃ s', async_process entry new_client user_input s
           = (inl (speech_reply user_input v (ulid_of (ulid_count s))), s')
       ∧ history s !! ulid_of (ulid_count s) = None
       ∧ history s' = <[ulid_of (ulid_count s) := next_loc s]> (history s)
       ∧ size (history s') = S (size (history s))
       ∧ stored s' (ulid_of (ulid_count s))
         = Some [message "system" (prompt_context entry);
                 message "user" (text user_input); v])
  ∧ (∀ calls cid l,
       stored (run calls init).2 cid = Some l →
       (∃ context,
          l = message "system" context :: transcript cid (run calls init).1)
       ∧ length l = 1 + 2 * successes cid (run calls init).1
                    + failures cid (run calls init).1
       ∧ (failures cid (run calls init).1 = 0 →
          length l = 1 + 2 * successes cid (run calls init).1
          ∧ ∃ context,
              l = message "system" context :: exchanges cid (run calls init).1)).
Proof.
  split.
  - intros s entry new_client user_input client v Hwf Hk Hc Hr.
    rewrite (async_process_eq _ _ _ _ _ Hc), Hr. unfold session_of. rewrite Hk.
    destruct (started_step s (message "system" (prompt_context entry))
                (message "user" (text user_input))
                (request_of (prompt_of (prompt_context entry) (text user_input)))
                Hwf) as (_ & _ & _ & _ & _ & Hrep).
    destruct (Hrep v) as (_ & Hh2 & _ & Hs2 & _).
    eexists. split; [reflexivity|].
    split_and!; [by apply fresh_not_stored|done| |done].
    rewrite Hh2. apply map_size_insert_None. by apply fresh_not_stored.
  - intros calls cid l Hl.
    destruct (run_invariant calls) as (_ & _ & Hst). specialize (Hst cid).
    simpl in Hst. rewrite Hl in Hst. destruct Hst as [context ->].
    split_and!.
    + by exists context.
    + simpl. rewrite transcript_length. lia.
    + intros H0. split.
      * simpl. rewrite transcript_length. lia.
      * exists context. by rewrite transcript_exchanges.
Qed.

(** C5 (amended).  Once the client is constructed, a call returns a result
    and raises nothing: every error of the remote interaction (the request
    and the reading of the answer) is caught and becomes the error reply
    with the code [UNKNOWN] and the message "Sorry, I had a problem talking
    to H2OGPT: " followed by the error's text; the result carries the id of
    the session, resumed or freshly minted. *)
Theorem C5_remote_errors_become_replies s entry new_client user_input client :
  client_of entry new_client = inl client →
  ∃ res s',
    async_process entry new_client user_input s = (inl res, s')
    ∧ conversation_id res
      = match known s user_input with
        | Some (id, _) => id
        | None => ulid_of (ulid_count s)
        end
    ∧ ∀ err,
        remote_result client (text user_input) (prompt_context entry) = inr err →
        response res
        = mkIntentResponse (input_language user_input)
            (Some (Error UNKNOWN
                     ("Sorry, I had a problem talking to H2OGPT: "
                      +:+ exn_str err))).
Proof.
  intros Hc. rewrite (async_process_eq _ _ _ _ _ Hc). unfold session_of.
  destruct (known s user_input) as [[id m]|];
    destruct (remote_result client _ _) as [v|err];
    eexists _, _; (split; [reflexivity|]); (split; [reflexivity|]);
    intros err' [= <-] || intros err' [=]; reflexivity.
Qed.

(** C6.  The answer [{"response": "hello"}] is read as a dict literal and
    its [response] item is the reply [hello], which the call returns as
    speech.  The answer [not a dict] is no literal: the exception of
    [ast.literal_eval] is caught and the call returns the error reply.  The
    same holds for the quoted text ["not a dict"], a string literal that has
    no item [response]. *)
Theorem C6_reply_is_read_or_refused entry new_client user_input s :
  let context := prompt_context entry in
  let cid := match known s user_input with
             | Some (id, _) => id
             | None => ulid_of (ulid_count s)
             end in
  let server answer := mkClient (λ _ _, inl answer) in
  literal_eval literal_eval_raises literal_eval_beyond Sample.hello
  = inl (PyDict [(PyStr "response", PyStr "hello")])
  ∧ remote_result (server Sample.hello) (text user_input) context
    = inl (PyStr "hello")
  ∧ (client_of entry new_client = inl (server Sample.hello) →
     ∃ s', async_process entry new_client user_input s
           = (inl (speech_reply user_input (PyStr "hello") cid), s'))
  ∧ remote_result (server "not a dict") (text user_input) context
    = inr (literal_eval_raises "not a dict")
  ∧ (client_of entry new_client = inl (server "not a dict") →
     ∃ s', async_process entry new_client user_input s
           = (inl (error_reply user_input (literal_eval_raises "not a dict") cid),
              s'))
  ∧ remote_result (server (dq "not a dict")) (text user_input) context
    = inr (mkExn TypeError "string indices must be integers, not 'str'")
  ∧ (client_of entry new_client = inl (server (dq "not a dict")) →
     ∃ s', async_process entry new_client user_input s
           = (inl (error_reply user_input
                     (mkExn TypeError "string indices must be integers, not 'str'")
                     cid), s')).
Proof.
  intros context cid server.
  assert (Hhello : remote_result (server Sample.hello) (text user_input) context
                   = inl (PyStr "hello")) by reflexivity.
  assert (Hbad : remote_result (server "not a dict") (text user_input) context
                 = inr (literal_eval_raises "not a dict")) by reflexivity.
  assert (Hquoted : remote_result (server (dq "not a dict")) (text user_input) context
                    = inr (mkExn TypeError
                             "string indices must be integers, not 'str'"))
    by reflexivity.
  split_and!; try done.
  - intros Hc. rewrite (async_process_eq _ _ _ _ _ Hc).
    fold context. rewrite Hhello. unfold session_of, cid.
    destruct (known s user_input) as [[id m]|]; by eexists.
  - intros Hc. rewrite (async_process_eq _ _ _ _ _ Hc).
    fold context. rewrite Hbad. unfold session_of, cid.
    destruct (known s user_input) as [[id m]|]; by eexists.
  - intros Hc. rewrite (async_process_eq _ _ _ _ _ Hc).
    fold context. rewrite Hquoted. unfold session_of, cid.
    destruct (known s user_input) as [[id m]|]; by eexists.
Qed.

(** C7.  [answer_question_using_context] sends exactly one request: to the
    procedure [/submit_nochat_api], with the text of the mapping whose keys
    are [stream_output] (false), [max_time] (360) and [instruction_nochat],
    the latter being the template filled in: the prompt context between two
    lines of three double quotes, then the question.  A call of
    [async_process] whose client is constructed sends this one request for
    its utterance and its prompt context, whatever the store holds. *)
Theorem C7_one_request_per_utterance client question context s :
  let prompt :=
    String newline triple_quote +:+ String newline context
    +:+ String newline triple_quote +:+ String newline question
    +:+ String newline EmptyString in
  let kwargs :=
    PyDict [(PyStr "stream_output", PyBool false);
            (PyStr "max_time", PyInt 360);
            (PyStr "instruction_nochat", PyStr prompt)] in
  format repr_str prompt_template [("context", context); ("question", question)]
  = inl prompt
  ∧ rpc_log (answer_question_using_context client question context s).2
    = rpc_log s ++ [("/submit_nochat_api", str repr_str kwargs)]
  ∧ str repr_str kwargs
    = "{" +:+ repr_str "stream_output" +:+ ": False, "
      +:+ repr_str "max_time" +:+ ": 360, "
      +:+ repr_str "instruction_nochat" +:+ ": " +:+ repr_str prompt +:+ "}"
  ∧ ∀ entry new_client user_input s0,
      client_of entry new_client = inl client →
      question = text user_input → context = prompt_context entry →
      rpc_log (async_process entry new_client user_input s0).2
      = rpc_log s0 ++ [("/submit_nochat_api", str repr_str kwargs)].
Proof.
  intros prompt kwargs. split_and!.
  - reflexivity.
  - rewrite answer_eq. reflexivity.
  - cbv [kwargs str repr join map fold_left fst snd].
    rewrite !append_assoc. reflexivity.
  - intros entry new_client user_input s0 Hc -> ->.
    rewrite (async_process_eq _ _ _ _ _ Hc). unfold session_of.
    destruct (known s0 user_input) as [[id m]|];
      destruct (remote_result client _ _); reflexivity.
Qed.

(** Every store a fresh agent reaches is well formed. *)
Lemma run_wf calls : wf (run calls init).2.
Proof. apply run_invariant. Qed.

Lemma last_pair {A} (l : list A) (x y : A) : last (l ++ [x; y]) = Some y.
Proof.
  replace (l ++ [x; y]) with ((l ++ [x]) ++ [y]) by by rewrite <- app_assoc.
  apply last_snoc.
Qed.

Lemma penultimate_pair {A} (l : list A) (x y : A) :
  (l ++ [x; y]) !! (length (l ++ [x; y]) - 2) = Some x.
Proof.
  rewrite length_app. simpl.
  replace (length l + 2 - 2) with (length l) by lia.
  by apply list_lookup_middle.
Qed.

(** C9 (amended).  After a successful call the list stored for the
    conversation ends with the value extracted from the answer, stored as
    it is and never wrapped: the last element is a bare string exactly when
    the extracted value is a string, and a role/content record exactly when
    the extracted value is one.  So for a reply that is a string the last
    element is that bare string and no record, while the system message at
    the head and the user message before the reply are role/content
    records. *)
Theorem C9_reply_is_stored_as_extracted
    calls entry new_client user_input client v :
  client_of entry new_client = inl client →
  remote_result client (text user_input) (prompt_context entry) = inl v →
  ∃ cid s' l,
    async_process entry new_client user_input (run calls init).2
    = (inl (speech_reply user_input v cid), s')
    ∧ stored s' cid = Some l
    ∧ (∃ context,
         l = message "system" context
             :: transcript cid (run calls init).1
                ++ [message "user" (text user_input); v])
    ∧ last l = Some v
    ∧ is_record <$> head l = Some true
    ∧ l !! (length l - 2) = Some (message "user" (text user_input))
    ∧ is_record (message "user" (text user_input)) = true
    ∧ is_bare_string <$> last l = Some (is_bare_string v)
    ∧ is_record <$> last l = Some (is_record v)
    ∧ ∀ reply, v = PyStr reply →
        is_bare_string <$> last l = Some true
        ∧ is_record <$> last l = Some false.
Proof.
  intros Hc Hr.
  set (c := mkCall entry new_client user_input).
  pose proof (run_invariant (calls ++ [c])) as Hinv.
  rewrite run_snoc in Hinv. simpl in Hinv. destruct Hinv as (_ & _ & Hst).
  destruct (run_invariant calls) as (Hwf & _ & _). simpl in Hwf.
  destruct (process_step c _ Hwf) as (_ & _ & _ & _ & Hstep). simpl in Hstep.
  unfold process in Hst, Hstep. simpl in Hst, Hstep.
  rewrite (async_process_eq _ _ _ _ _ Hc), Hr in Hst, Hstep |- *.
  set (s := (run calls init).2) in *. set (log := (run calls init).1) in *.
  destruct (session_of s entry user_input) as [[cid m] s0]. simpl in Hst, Hstep.
  eexists cid, _. specialize (Hst cid). specialize (Hstep cid).
  rewrite transcript_snoc in Hst. unfold entries in Hst, Hstep.
  rewrite spoke_speech, String.eqb_refl in Hst, Hstep.
  match type of Hstep with _ = ?rhs => assert (Hsome : is_Some rhs) end.
  { destruct (stored s cid); by eexists. }
  rewrite <- Hstep in Hsome. destruct Hsome as [l Hl].
  rewrite Hl in Hst. destruct Hst as [context ->].
  exists (message "system" context
          :: transcript cid log ++ [message "user" (text user_input); v]).
  split_and!; [reflexivity|done|by exists context| |done| |done| | |].
  - rewrite app_comm_cons. apply last_pair.
  - rewrite app_comm_cons. apply penultimate_pair.
  - rewrite app_comm_cons, last_pair. done.
  - rewrite app_comm_cons, last_pair. done.
  - intros reply ->. rewrite app_comm_cons, last_pair. done.
Qed.

(** C10.  When the first call of a conversation fails at the remote step,
    the caller gets the freshly minted id, but nothing is stored under it.
    A later call that presents this id finds no session: it mints another
    id, different from the first, and starts a list with a system message
    of its own, which is stored under the new id when the call succeeds.
    Nothing is ever stored under the first id. *)
Theorem C10_failed_first_call_is_forgotten
    s entry1 new_client1 input1 client1 err entry2 new_client2 input2 client2 :
  wf s →
  known s input1 = None →
  client_of entry1 new_client1 = inl client1 →
  remote_result client1 (text input1) (prompt_context entry1) = inr err →
  input_conversation_id input2 = Some (ulid_of (ulid_count s)) →
  client_of entry2 new_client2 = inl client2 →
  ∃ s1 res2 s2,
    async_process entry1 new_client1 input1 s
    = (inl (error_reply input1 err (ulid_of (ulid_count s))), s1)
    ∧ history s1 = history s
    ∧ history s1 !! ulid_of (ulid_count s) = None
    ∧ known s1 input2 = None
    ∧ async_process entry2 new_client2 input2 s1 = (inl res2, s2)
    ∧ conversation_id res2 = ulid_of (S (ulid_count s))
    ∧ conversation_id res2 ≠ ulid_of (ulid_count s)
    ∧ (∃ tail,
         heap s2 !! next_loc s1
         = Some (message "system" (prompt_context entry2)
                 :: message "user" (text input2) :: tail))
    ∧ (∀ v, remote_result client2 (text input2) (prompt_context entry2) = inl v →
         stored s2 (ulid_of (S (ulid_count s)))
         = Some [message "system" (prompt_context entry2);
                 message "user" (text input2); v])
    ∧ stored s2 (ulid_of (ulid_count s)) = None.
Proof.
  intros Hwf Hk1 Hc1 Hr1 Hin2 Hc2.
  rewrite (async_process_eq _ _ _ _ _ Hc1), Hr1. unfold session_of. rewrite Hk1.
  destruct (started_step s (message "system" (prompt_context entry1))
              (message "user" (text input1))
              (request_of (prompt_of (prompt_context entry1) (text input1)))
              Hwf) as (Hfresh & Hwf1 & Hh1 & Hu1 & Hs1 & _).
  set (s1 := logged _ _) in *.
  assert (Hnone : history s1 !! ulid_of (ulid_count s) = None).
  { rewrite Hh1. by apply fresh_not_stored. }
  assert (Hk2 : known s1 input2 = None).
  { by eapply known_unknown. }
  assert (Hne : ulid_of (S (ulid_count s)) ≠ ulid_of (ulid_count s)).
  { intros Heq%ulid_inj. lia. }
  pose proof (async_process_eq entry2 new_client2 input2 s1 client2 Hc2) as H2.
  unfold session_of in H2. rewrite Hk2 in H2.
  destruct (started_step s1 (message "system" (prompt_context entry2))
              (message "user" (text input2))
              (request_of (prompt_of (prompt_context entry2) (text input2)))
              Hwf1) as (_ & _ & _ & _ & Hs2 & Hrep).
  rewrite Hu1 in *.
  assert (Hstill : stored s1 (ulid_of (ulid_count s)) = None)
    by by rewrite Hs1.
  destruct (remote_result client2 _ _) as [v|err2].
  - destruct (Hrep v) as (_ & _ & _ & Hst2 & Ho2).
    eexists s1, _, _.
    split_and!; [reflexivity|done|done|done|exact H2|done|done| | |].
    + eexists. simpl. rewrite !lookup_alter, !decide_True by done.
      rewrite lookup_insert_eq. simpl. reflexivity.
    + intros v' [= <-]. done.
    + rewrite Ho2 by done. done.
  - eexists s1, _, _.
    split_and!; [reflexivity|done|done|done|exact H2|done|done| | |].
    + eexists. simpl. rewrite !lookup_alter, !decide_True by done.
      rewrite lookup_insert_eq. simpl. reflexivity.
    + intros v' [=].
    + rewrite Hs2. done.
Qed.

(** *** Further properties of the agent *)

Lemma run_wf_from calls s : wf s → wf (run calls s).2.
Proof.
  revert s. induction calls as [|c calls IH]; intros s Hwf; [done|].
  simpl. destruct (process_step c s Hwf) as (Hwf' & _).
  destruct (process c s) as [r s']. specialize (IH s' Hwf').
  destruct (run calls s') as [log s'']. done.
Qed.

Lemma entries_length cid cr : length (entries cid cr) ≤ 2.
Proof.
  unfold entries. destruct (spoke cid cr); [simpl; lia|].
  destruct (failed cid cr); simpl; lia.
Qed.

(** X1.  No call deletes or shortens a conversation: along every run from
    a well-formed store, the list stored for a conversation is extended at
    its end and never otherwise changed. *)
Theorem stored_lists_only_grow calls s cid l :
  wf s →
  stored s cid = Some l →
  ∃ tail, stored (run calls s).2 cid = Some (l ++ tail).
Proof.
  revert s l. induction calls as [|c calls IH]; intros s l Hwf Hl.
  - exists []. simpl. by rewrite app_nil_r.
  - simpl. destruct (process_step c s Hwf) as (Hwf' & _ & _ & _ & Hstep).
    specialize (Hstep cid). rewrite Hl in Hstep.
    destruct (process c s) as [r s']. simpl in *.
    destruct (IH s' _ Hwf' Hstep) as [tail Htail].
    destruct (run calls s') as [log s'']. simpl in *.
    exists (entries cid (c, r) ++ tail). by rewrite app_assoc.
Qed.

(** X2.  A call changes the list of at most one conversation, the one
    whose id it returns: every other conversation, stored or not, is as it
    was, also when the call raises. *)
Theorem call_touches_one_conversation c s cid :
  wf s →
  (∀ res, (process c s).1 = inl res → conversation_id res ≠ cid) →
  stored (process c s).2 cid = stored s cid.
Proof.
  intros Hwf Hother.
  destruct (process_step c s Hwf) as (_ & _ & _ & _ & Hstep).
  rewrite (Hstep cid).
  assert (Hs : spoke cid (c, (process c s).1) = None).
  { unfold spoke. simpl. destruct (process c s).1 as [res|e] eqn:Hr; [|done].
    destruct (content (response res)) as [[v|? ?]|]; try done.
    destruct (String.eqb_spec (conversation_id res) cid) as [Heq|]; [|done].
    by destruct (Hother res eq_refl). }
  assert (Hf : failed cid (c, (process c s).1) = false).
  { destruct (failed cid (c, (process c s).1)) eqn:Hf; [|done].
    apply failed_inv in Hf as (res & Hr & Hcid). by destruct (Hother res Hr). }
  unfold entries. rewrite Hs, Hf.
  destruct (stored s cid); [by rewrite app_nil_r|done].
Qed.

Lemma successes_snoc cid log cr :
  successes cid (log ++ [cr])
  = successes cid log + match spoke cid cr with Some _ => 1 | None => 0 end.
Proof.
  unfold successes. rewrite filter_app, length_app, filter_cons, filter_nil.
  destruct (spoke cid cr) as [v|].
  - rewrite decide_True by by eexists. done.
  - rewrite decide_False by by intros []. done.
Qed.

(** X3.  Along every run of a fresh agent, a conversation is stored exactly
    when one of its calls succeeded: a conversation all of whose calls
    failed is not stored, however often its id was returned. *)
Theorem stored_iff_answered calls cid :
  is_Some (stored (run calls init).2 cid)
  ↔ 0 < successes cid (run calls init).1.
Proof.
  induction calls as [|c calls IH] using rev_ind.
  - simpl. unfold stored, successes. simpl. rewrite lookup_empty. simpl.
    split; [by intros []|lia].
  - rewrite run_snoc. simpl. rewrite successes_snoc.
    destruct (run_invariant calls) as (Hwf & _ & _). simpl in Hwf.
    destruct (process_step c _ Hwf) as (_ & _ & _ & _ & Hstep). simpl in Hstep.
    rewrite (Hstep cid).
    destruct (stored (run calls init).2 cid) as [l|].
    + split; [intros _|by eexists].
      assert (0 < successes cid (run calls init).1) by (apply IH; by eexists). lia.
    + assert (H0 : successes cid (run calls init).1 = 0).
      { destruct (successes cid (run calls init).1) eqn:E; [done|].
        assert (is_Some (@None (list pyval))) as [? ?] by (apply IH; lia). done. }
      rewrite H0. destruct (spoke cid (c, _)) as [v|]; simpl.
      * split; [lia|by eexists].
      * split; [by intros []|lia].
Qed.

Lemma process_mints_at_most_one c s :
  ulid_count (process c s).2 ≤ S (ulid_count s).
Proof.
  destruct c as [entry new_client user_input]. unfold process. simpl.
  destruct (client_of entry new_client) as [client|e] eqn:Hc.
  - rewrite (async_process_eq _ _ _ _ _ Hc). unfold session_of.
    destruct (known s user_input) as [[id m]|];
      destruct (remote_result client _ _); simpl; lia.
  - rewrite (async_process_raises _ _ _ _ _ Hc). simpl. lia.
Qed.

Lemma run_mints_at_most calls s :
  ulid_count (run calls s).2 ≤ ulid_count s + length calls.
Proof.
  revert s. induction calls as [|c calls IH]; intros s; simpl; [lia|].
  pose proof (process_mints_at_most_one c s) as H1.
  destruct (process c s) as [r s']. specialize (IH s').
  destruct (run calls s') as [log s'']. simpl in *. lia.
Qed.

(** X4.  The agent never adopts an identifier the caller invented: after
    [n] calls of a fresh agent every stored conversation id is one of the
    first [n] identifiers of the generator. *)
Theorem stored_ids_are_minted calls cid :
  is_Some (stored (run calls init).2 cid) →
  ∃ k, k < length calls ∧ cid = ulid_of k.
Proof.
  intros [l Hl]. apply stored_Some in Hl as (m & Hm & _).
  destruct (wf_minted _ (run_wf calls) cid) as (k & Hk & ->); [by eexists|].
  exists k. split; [|done].
  pose proof (run_mints_at_most calls init). simpl in *. lia.
Qed.

(** X5.  The id a call mints for a conversation it does not find was never
    returned by an earlier call of the run. *)
Theorem minted_id_is_new calls c res c0 res0 :
  known (run calls init).2 (call_input c) = None →
  (process c (run calls init).2).1 = inl res →
  (c0, inl res0) ∈ (run calls init).1 →
  conversation_id res0 ≠ conversation_id res.
Proof.
  intros Hk Hr Hin.
  destruct (run_invariant calls) as (Hwf & Hids & _). simpl in Hwf, Hids.
  destruct (Hids c0 res0 Hin) as (k & Hlt & Hk0).
  assert (Hnew : conversation_id res = ulid_of (ulid_count (run calls init).2)).
  { destruct c as [entry new_client user_input]. unfold process in Hr.
    simpl in Hr, Hk.
    destruct (client_of entry new_client) as [client|e] eqn:Hc.
    - rewrite (async_process_eq _ _ _ _ _ Hc) in Hr. unfold session_of in Hr.
      rewrite Hk in Hr.
      destruct (remote_result client _ _); simpl in Hr; by injection Hr as <-.
    - by rewrite (async_process_raises _ _ _ _ _ Hc) in Hr. }
  rewrite Hk0, Hnew. intros Heq%ulid_inj. lia.
Qed.

(** The request a call sends when its client is constructed. *)
Lemma process_log c s :
  rpc_log (process c s).2
  = rpc_log s
    ++ (if connects c
        then [request_of (prompt_of (prompt_context (call_entry c))
                            (text (call_input c)))]
        else []).
Proof.
  destruct c as [entry new_client user_input]. unfold process, connects. simpl.
  destruct (client_of entry new_client) as [client|e] eqn:Hc.
  - rewrite (async_process_eq _ _ _ _ _ Hc). unfold session_of.
    destruct (known s user_input) as [[id m]|];
      destruct (remote_result client _ _); reflexivity.
  - rewrite (async_process_raises _ _ _ _ _ Hc). simpl. by rewrite app_nil_r.
Qed.

(** X6.  Over a run the server receives exactly one request for every call
    whose client was constructed, in the order of the calls, each with the
    prompt of that call's utterance and current prompt context: no retry
    after a failure, nothing for a call that could not connect, and no
    dependence on the conversations. *)
Theorem requests_of_a_run calls s :
  rpc_log (run calls s).2
  = rpc_log s
    ++ map (λ c, request_of (prompt_of (prompt_context (call_entry c))
                               (text (call_input c))))
           (filter (λ c, connects c = true) calls).
Proof.
  revert s. induction calls as [|c calls IH]; intros s.
  - simpl. by rewrite app_nil_r.
  - simpl. pose proof (process_log c s) as Hlog.
    destruct (process c s) as [r s']. specialize (IH s').
    destruct (run calls s') as [log s'']. simpl in *.
    rewrite IH, Hlog, filter_cons. destruct (connects c).
    + rewrite decide_True by done. simpl. by rewrite <- app_assoc.
    + rewrite decide_False by done. by rewrite app_nil_r.
Qed.

(** X7.  The remote interaction yields a reply exactly when the server
    answers, the answer evaluates to a dict, and the dict has an item
    [response], whose value is the reply whatever else the dict holds.  An
    exception of the request is passed on as it is. *)
Theorem reply_iff_dict_with_response client question context v :
  (remote_result client question context = inl v
   ↔ ∃ answer items,
       predict_fn client (request_of (prompt_of context question)).2
         "/submit_nochat_api" = inl answer
       ∧ literal_eval literal_eval_raises literal_eval_beyond answer
         = inl (PyDict items)
       ∧ dict_get items "response" = Some v)
  ∧ ∀ e, predict_fn client (request_of (prompt_of context question)).2
           "/submit_nochat_api" = inr e →
         remote_result client question context = inr e.
Proof.
  assert (Heq : remote_result client question context
                = match predict_fn client (request_of (prompt_of context question)).2
                          "/submit_nochat_api" with
                  | inl answer =>
                      match literal_eval literal_eval_raises literal_eval_beyond
                              answer with
                      | inl parsed => getitem_str repr_str parsed "response"
                      | inr e => inr e
                      end
                  | inr e => inr e
                  end).
  { unfold remote_result, answer_question_using_context.
    unfold bind at 1. unfold lift at 1. rewrite format_prompt.
    unfold bind at 1. rewrite call_api_eq.
    destruct (predict_fn client _ _) as [answer|e]; [|reflexivity].
    unfold bind, lift.
    destruct (literal_eval _ _ answer) as [parsed|e]; [|reflexivity].
    by destruct (getitem_str repr_str parsed "response"). }
  rewrite Heq. split.
  - split.
    + destruct (predict_fn client _ _) as [answer|e]; [|done].
      destruct (literal_eval _ _ answer) as [parsed|e] eqn:Hlit; [|done].
      destruct parsed as [| | | | | |items]; try done. simpl.
      destruct (dict_get items "response") as [x|] eqn:Hx; [|done].
      intros [= <-]. exists answer, items. split_and!; done.
    + intros (answer & items & -> & -> & Hv). simpl. by rewrite Hv.
  - by intros e ->.
Qed.

(** X8.  The options form suggests the prompt context the agent uses: when
    the schema is built, its single field is keyed by [CONF_PROMPT_CONTEXT],
    suggests the entry's current prompt context and defaults to the
    built-in one.  The schema is not built, with a [KeyError], exactly when
    the options are not empty and lack the key, a case in which the agent
    falls back to the built-in prompt context. *)
Theorem options_schema_follows_the_agent entry :
  (∀ schema,
     h2ogpt_conversation_config_option_schema (options entry) = inl schema →
     schema = [mkField CONF_PROMPT_CONTEXT (prompt_context entry)
                       DEFAULT_PROMPT_CONTEXT])
  ∧ ((∃ e, h2ogpt_conversation_config_option_schema (options entry) = inr e)
     ↔ options entry ≠ ∅ ∧ options entry !! CONF_PROMPT_CONTEXT = None)
  ∧ (∀ e, h2ogpt_conversation_config_option_schema (options entry) = inr e →
       e = mkExn KeyError (repr_str CONF_PROMPT_CONTEXT)
       ∧ prompt_context entry = DEFAULT_PROMPT_CONTEXT).
Proof.
  unfold h2ogpt_conversation_config_option_schema, prompt_context, getitem,
    DEFAULT_OPTIONS.
  destruct (decide (options entry = ∅)) as [Hempty|Hfull].
  - rewrite bool_decide_eq_true_2 by done. rewrite Hempty.
    rewrite lookup_insert_eq, lookup_empty. simpl. split_and!.
    + by intros schema [= <-].
    + split; [by intros [e ?]|by intros [? _]].
    + by intros e.
  - rewrite bool_decide_eq_false_2 by done.
    destruct (options entry !! CONF_PROMPT_CONTEXT) as [p|]; simpl; split_and!.
    + by intros schema [= <-].
    + split; [by intros [e ?]|by intros [_ ?]].
    + by intros e.
    + by intros schema.
    + split; [done|by eexists].
    + by intros e [= <-].
Qed.

(** X9.  Submitting the options form stores the input as it is; once the
    platform has made it the options of the entry, the agent uses the
    submitted prompt context, the form opened again suggests it, and the
    host URL of the entry is untouched. *)
Theorem submitted_prompt_context_is_used entry input_data p :
  input_data !! CONF_PROMPT_CONTEXT = Some p →
  ∃ r,
    async_step_init entry (Some input_data) = inl r
    ∧ r = options_create_entry "H2OGPT Conversation" input_data
    ∧ prompt_context (with_options entry r) = p
    ∧ data (with_options entry r) = data entry
    ∧ async_step_init (with_options entry r) None
      = inl (options_show_form "init"
               [mkField CONF_PROMPT_CONTEXT p DEFAULT_PROMPT_CONTEXT]).
Proof.
  intros Hp. eexists. split; [reflexivity|]. split; [reflexivity|]. simpl.
  split_and!.
  - unfold prompt_context. simpl. by rewrite Hp.
  - done.
  - unfold h2ogpt_conversation_config_option_schema, getitem. simpl.
    rewrite bool_decide_eq_false_2.
    + by rewrite Hp.
    + intros ->. by rewrite lookup_empty in Hp.
Qed.

(** X10.  A conversation keeps the system message it was started with: a
    later call in it, made after the prompt context of the entry was
    edited, leaves the head of the stored list as it is, while the request
    it sends carries the edited prompt context. *)
Theorem resumed_session_keeps_its_system_message
    s entry new_client user_input client id system rest :
  wf s →
  input_conversation_id user_input = Some id →
  stored s id = Some (system :: rest) →
  client_of entry new_client = inl client →
  ∃ tail,
    stored (async_process entry new_client user_input s).2 id
    = Some (system :: rest ++ tail)
    ∧ rpc_log (async_process entry new_client user_input s).2
      = rpc_log s
        ++ [request_of (prompt_of (prompt_context entry) (text user_input))].
Proof.
  intros Hwf Hin Hst Hc.
  set (c := mkCall entry new_client user_input).
  destruct (process_step c s Hwf) as (_ & _ & _ & _ & Hstep).
  specialize (Hstep id). rewrite Hst in Hstep.
  pose proof (process_log c s) as Hlog.
  unfold connects, process in *. simpl in *. rewrite Hc in Hlog.
  eexists. split; [exact Hstep|exact Hlog].
Qed.

(** X11.  A call whose client cannot be constructed has no effect: the
    exception leaves [async_process] and the store is as before, so no id
    is minted, no message appended and no request sent.  An entry without
    host URL is such a case, with a [KeyError], whatever the server does. *)
Theorem unconnected_call_has_no_effect entry new_client user_input s :
  (∀ e, client_of entry new_client = inr e →
        async_process entry new_client user_input s = (inr e, s))
  ∧ (data entry !! CONF_HOST_URL = None →
     async_process entry new_client user_input s
     = (inr (mkExn KeyError (repr_str CONF_HOST_URL)), s)).
Proof.
  split.
  - intros e He. by apply async_process_raises.
  - intros Hnone. apply async_process_raises.
    unfold client_of, getitem. by rewrite Hnone.
Qed.

(** X12.  Every result of [async_process] answers in the language of the
    input and carries either speech or an error with the code [UNKNOWN];
    no other error code is ever used and no result is left empty. *)
Theorem results_echo_the_language entry new_client user_input s res :
  (async_process entry new_client user_input s).1 = inl res →
  language (response res) = input_language user_input
  ∧ ((∃ v, content (response res) = Some (Speech v))
     ∨ ∃ msg, content (response res) = Some (Error UNKNOWN msg)).
Proof.
  destruct (client_of entry new_client) as [client|e] eqn:Hc.
  - rewrite (async_process_eq _ _ _ _ _ Hc). unfold session_of.
    destruct (known s user_input) as [[id m]|];
      destruct (remote_result client _ _) as [v|err]; simpl;
      intros [= <-]; simpl; (split; [done|]); eauto.
  - by rewrite (async_process_raises _ _ _ _ _ Hc).
Qed.

(** *** Further properties of the wizard and of the setup *)

(** X13.  The wizard never raises and never leaves its step: without input
    it shows the form without errors; with input it shows the form with
    the error [cannot_connect] when the form holds a host URL for which the
    check raises an [HTTPError], and with the error [unknown] in every
    other case, a form without host URL included. *)
Theorem wizard_always_shows_the_form user_input :
  ∃ errors,
    async_step_user user_input = inl (async_show_form "user" errors)
    ∧ match user_input with
      | None => errors = None
      | Some input_data =>
          errors
          = Some (<["base" :=
                    match input_data !! CONF_HOST_URL with
                    | Some host_url =>
                        match check_connection host_url with
                        | inr e => if isinstance e HTTPError
                                   then "cannot_connect" else "unknown"
                        | inl _ => "unknown"
                        end
                    | None => "unknown"
                    end]> ∅)
      end.
Proof.
  destruct user_input as [input_data|]; [|by eexists].
  unfold async_step_user, validate_input, getitem.
  destruct (input_data !! CONF_HOST_URL) as [host_url|]; [|by eexists].
  destruct (check_connection host_url) as [checked|e]; [by eexists|].
  destruct (isinstance e HTTPError); [by eexists|].
  rewrite isinstance_Exception. by eexists.
Qed.

(** X14.  Unloading an entry that was set up succeeds: its host URL is
    removed from [hass.data] under the domain, whose dict stays in place,
    and its agent is unregistered. *)
Theorem unload_after_setup hass entry host_url r :
  data entry !! CONF_HOST_URL = Some host_url →
  requests_get host_url = inl r → status_code r = 200%Z →
  ∃ hass1 hass2,
    async_setup_entry hass entry = (inl true, hass1)
    ∧ async_unload_entry hass1 entry = (inl true, hass2)
    ∧ agents hass2 = delete (entry_id entry) (agents hass)
    ∧ hass_data hass2
      = <[DOMAIN := delete (entry_id entry) (default ∅ (hass_data hass !! DOMAIN))]>
          (hass_data hass)
    ∧ agents hass2 !! entry_id entry = None
    ∧ (hass_data hass2 !! DOMAIN) ≫= (.!! entry_id entry) = None.
Proof.
  intros Hurl Hget Hst.
  unfold async_setup_entry, check_connection.
  rewrite (getitem_Some _ _ _ Hurl), Hget, Hst. simpl.
  eexists _, _. split; [reflexivity|].
  unfold async_unload_entry. simpl. rewrite !lookup_insert_eq.
  split; [reflexivity|]. simpl. split_and!.
  - by rewrite delete_insert_eq.
  - by rewrite insert_insert_eq, delete_insert_eq.
  - by rewrite delete_insert_eq, lookup_delete_eq.
  - rewrite lookup_insert_eq. simpl. by rewrite lookup_delete_eq.
Qed.

(** X15.  Unloading an entry whose host URL is not in [hass.data], because
    it was never set up or its setup failed, raises [KeyError] and changes
    nothing: an agent registered for the entry stays registered. *)
Theorem unload_without_setup_raises hass entry :
  (hass_data hass !! DOMAIN) ≫= (.!! entry_id entry) = None →
  ∃ e, async_unload_entry hass entry = (inr e, hass) ∧ exn_cls e = KeyError.
Proof.
  unfold async_unload_entry.
  destruct (hass_data hass !! DOMAIN) as [domain_data|]; simpl; [|by eexists].
  intros ->. by eexists.
Qed.

(** X16.  Setup and unload of one entry leave every other entry alone,
    whatever the outcome: the agents and the host URLs recorded for other
    entry ids are unchanged. *)
Theorem other_entries_are_kept hass entry other :
  other ≠ entry_id entry →
  (agents (async_setup_entry hass entry).2 !! other = agents hass !! other
   ∧ (hass_data (async_setup_entry hass entry).2 !! DOMAIN) ≫= (.!! other)
     = (hass_data hass !! DOMAIN) ≫= (.!! other))
  ∧ (agents (async_unload_entry hass entry).2 !! other = agents hass !! other
     ∧ (hass_data (async_unload_entry hass entry).2 !! DOMAIN) ≫= (.!! other)
       = (hass_data hass !! DOMAIN) ≫= (.!! other)).
Proof.
  intros Hne. split.
  - unfold async_setup_entry.
    destruct (getitem repr_str (data entry) CONF_HOST_URL) as [host_url|e].
    + destruct (check_connection host_url) as [checked|e].
      * simpl. rewrite lookup_insert_ne by done. split; [done|].
        rewrite lookup_insert_eq. simpl. rewrite lookup_insert_ne by done.
        destruct (hass_data hass !! DOMAIN); simpl; [done|].
        by rewrite lookup_empty.
      * destruct (isinstance e URLError); [done|].
        by rewrite isinstance_Exception.
    + destruct (isinstance e URLError); [done|].
      by rewrite isinstance_Exception.
  - unfold async_unload_entry.
    destruct (hass_data hass !! DOMAIN) as [domain_data|] eqn:Hd;
      [|simpl; by rewrite Hd].
    destruct (domain_data !! entry_id entry); simpl; [|by rewrite Hd].
    rewrite lookup_delete_ne by done. split; [done|].
    rewrite lookup_insert_eq. simpl. by rewrite lookup_delete_ne.
Qed.

End Integration.

(** ** The functions on the sample objects

    The integration with [const.py] read as [host_url] and
    [prompt_context], [repr] on ASCII text, and the decimal numerals as
    the identifiers of the generator. *)

Local Abbreviation demo_ulid := (pretty : nat → string).
Local Abbreviation demo_process :=
  (async_process Sample.host_key Sample.prompt_key Sample.default_prompt
     repr_ascii Sample.raises Sample.beyond demo_ulid).
Local Abbreviation demo_run :=
  (run Sample.host_key Sample.prompt_key Sample.default_prompt
     repr_ascii Sample.raises Sample.beyond demo_ulid).
Local Abbreviation demo_wizard get :=
  (async_step_user Sample.host_key repr_ascii get Sample.calling).
Local Abbreviation demo_setup get :=
  (async_setup_entry Sample.host_key Sample.domain repr_ascii get).
Local Abbreviation demo_wf := (wf demo_ulid).

Lemma demo_ulid_inj (j k : nat) : demo_ulid j = demo_ulid k → j = k.
Proof. apply pretty_nat_inj. Qed.

Lemma demo_client answer :
  client_of Sample.host_key repr_ascii Sample.entry (Sample.replying answer)
  = inl (mkClient (λ _ _, inl answer)).
Proof. reflexivity. Qed.

(** The store after one successful call of a fresh agent. *)
Lemma demo_wf_after_first :
  demo_wf (demo_process Sample.entry (Sample.replying Sample.hi_there)
             Sample.hi init).2.
Proof.
  apply (process_step Sample.host_key Sample.prompt_key Sample.default_prompt
           repr_ascii Sample.raises Sample.beyond demo_ulid demo_ulid_inj
           (mkCall Sample.entry (Sample.replying Sample.hi_there) Sample.hi)
           init (wf_init _)).
Qed.

(** *** The library model on sample texts *)

Example read_hello :
  read Sample.hello = Parsed (PyDict [(PyStr "response", PyStr "hello")]).
Proof. reflexivity. Qed.

Example read_nested :
  read "{'response': 'hi', 'sources': [1, [True, None], {}]}"
  = Parsed (PyDict [(PyStr "response", PyStr "hi");
                    (PyStr "sources",
                     PyList [PyInt 1; PyList [PyBool true; PyNone]; PyDict []])]).
Proof. reflexivity. Qed.

Example read_not_a_dict : read "not a dict" = Malformed.
Proof. reflexivity. Qed.

Example read_quoted : read (dq "not a dict") = Parsed (PyStr "not a dict").
Proof. reflexivity. Qed.

Example read_float_is_beyond : read "{'response': 1.5}" = Beyond.
Proof. reflexivity. Qed.

Example read_triple_quoted_is_beyond : read "'''a'''" = Beyond.
Proof. reflexivity. Qed.

Example request_example :
  request_of repr_ascii (prompt_of "Be brief." "hi")
  = ("/submit_nochat_api",
     "{'stream_output': False, 'max_time': 360, 'instruction_nochat': '\n"
     +:+ triple_quote +:+ "\nBe brief.\n" +:+ triple_quote +:+ "\nhi\n'}").
Proof. reflexivity. Qed.

Example issubclass_requests :
  issubclass HTTPError RequestException = true
  ∧ issubclass ConnectionError HTTPError = false
  ∧ issubclass HTTPError URLError = false
  ∧ issubclass ConnectTimeout OSError = true.
Proof. split_and!; reflexivity. Qed.

(** The scenario of two calls in one conversation: the second call appends
    to the list of the first, which then holds five messages. *)
Example two_calls_scenario :
  let r1 := demo_process Sample.entry (Sample.replying Sample.hi_there)
              Sample.hi init in
  let r2 := demo_process Sample.entry (Sample.replying Sample.hi_there)
              (Sample.again "0") r1.2 in
  r1.1 = inl (speech_reply Sample.hi (PyStr "hi there") "0")
  ∧ r2.1 = inl (speech_reply (Sample.again "0") (PyStr "hi there") "0")
  ∧ stored r2.2 "0"
    = Some [message "system" Sample.default_prompt;
            message "user" "hi"; PyStr "hi there";
            message "user" "again"; PyStr "hi there"].
Proof. split_and!; vm_compute; reflexivity. Qed.

(** *** C1 *)

(** The wizard on a host that answers the check with status 200. *)
Lemma C1_wizard_success_witness :
  demo_wizard (Sample.answering 200) (Some Sample.form)
  = inl (async_show_form "user" (Some (<["base" := "unknown"]> ∅))).
Proof.
  destruct (C1_wizard_success_is_reported_unknown Sample.host_key repr_ascii
              (Sample.answering 200) Sample.calling Sample.form Sample.url)
    as (_ & _ & H & _); [reflexivity|reflexivity|exact H].
Defined.

(** *** C2: a refused connection is not reported as [cannot_connect] *)

(** C2 (counterexample).  When the connection is refused, [requests.get]
    raises its [ConnectionError]; [check_connection] passes it on, it is no
    [HTTPError], and the wizard reports [unknown]. *)
Lemma C2_refused_connection_is_reported_unknown :
  check_connection Sample.refusing Sample.url
  = inr (mkExn ConnectionError "Max retries exceeded with url: /")
  ∧ isinstance (mkExn ConnectionError "Max retries exceeded with url: /")
      HTTPError = false
  ∧ demo_wizard Sample.refusing (Some Sample.form)
    = inl (async_show_form "user" (Some (<["base" := "unknown"]> ∅))).
Proof. split_and!; reflexivity. Qed.

(** *** C3 *)

(** C3 (counterexample).  A conversation with one exchange has three
    stored messages; a second call in it whose answer cannot be read
    returns the error reply with the same id and leaves four. *)
Lemma C3_failed_call_lengthens_stored_list :
  let s1 := (demo_process Sample.entry (Sample.replying Sample.hi_there)
               Sample.hi init).2 in
  let r2 := demo_process Sample.entry (Sample.replying "not a dict")
              (Sample.again "0") s1 in
  length <$> stored s1 "0" = Some 3
  ∧ r2.1 = inl (error_reply (Sample.again "0") (Sample.raises "not a dict") "0")
  ∧ length <$> stored r2.2 "0" = Some 4.
Proof. split_and!; vm_compute; reflexivity. Qed.

(** The failed second call of that conversation, by the theorem. *)
Lemma C3_failed_call_witness :
  ∃ s',
    demo_process Sample.entry (Sample.replying "not a dict") (Sample.again "0")
      (demo_process Sample.entry (Sample.replying Sample.hi_there)
         Sample.hi init).2
    = (inl (error_reply (Sample.again "0") (Sample.raises "not a dict") "0"), s')
    ∧ length <$> stored s' "0" = Some 4.
Proof.
  destruct (C3_failed_call_keeps_user_message Sample.host_key Sample.prompt_key
              Sample.default_prompt repr_ascii Sample.raises Sample.beyond
              demo_ulid demo_ulid_inj
              (demo_process Sample.entry (Sample.replying Sample.hi_there)
                 Sample.hi init).2
              Sample.entry (Sample.replying "not a dict") (Sample.again "0")
              (mkClient (λ _ _, inl "not a dict")) (Sample.raises "not a dict")
              demo_wf_after_first eq_refl eq_refl)
    as (cid & s' & Hrun & _ & _ & Hcase).
  vm_compute known in Hcase. destruct Hcase as (-> & _ & l & Hl & Hl' & _).
  exists s'. split; [exact Hrun|].
  rewrite Hl'. vm_compute in Hl. injection Hl as <-. reflexivity.
Defined.

(** *** C4 *)

(** C4 (counterexample).  The first call of a fresh agent, with no
    conversation id, fails at the remote step: the caller gets the id [0]
    and no session exists afterwards.  And in a run of one successful call
    followed by a failed one in the same conversation, the conversation has
    one successful call and four stored messages. *)
Lemma C4_failed_calls_break_the_count :
  let r1 := demo_process Sample.entry (Sample.replying "not a dict")
              Sample.hi init in
  let run2 := demo_run
                [mkCall Sample.entry (Sample.replying Sample.hi_there) Sample.hi;
                 mkCall Sample.entry (Sample.replying "not a dict")
                   (Sample.again "0")]
                init in
  r1.1 = inl (error_reply Sample.hi (Sample.raises "not a dict") "0")
  ∧ history r1.2 = ∅
  ∧ stored r1.2 "0" = None
  ∧ successes "0" run2.1 = 1
  ∧ length <$> stored run2.2 "0" = Some 4.
Proof. split_and!; vm_compute; reflexivity. Qed.

(** The first call of a fresh agent and a run of two successful calls. *)
Lemma C4_new_session_witness :
  (∃ s', demo_process Sample.entry (Sample.replying Sample.hi_there)
           Sample.hi init
         = (inl (speech_reply Sample.hi (PyStr "hi there") "0"), s')
         ∧ stored s' "0"
           = Some [message "system" Sample.default_prompt;
                   message "user" "hi"; PyStr "hi there"])
  ∧ ∃ l,
      stored (demo_run
                [mkCall Sample.entry (Sample.replying Sample.hi_there) Sample.hi;
                 mkCall Sample.entry (Sample.replying Sample.hi_there)
                   (Sample.again "0")]
                init).2 "0" = Some l
      ∧ length l = 1 + 2 * 2 + 0.
Proof.
  destruct (C4_new_session_and_list_length Sample.host_key Sample.prompt_key
              Sample.default_prompt repr_ascii Sample.raises Sample.beyond
              demo_ulid demo_ulid_inj) as [Hnew Hrun].
  split.
  - destruct (Hnew init Sample.entry (Sample.replying Sample.hi_there) Sample.hi
                (mkClient (λ _ _, inl Sample.hi_there)) (PyStr "hi there")
                (wf_init _) eq_refl eq_refl eq_refl)
      as (s' & Hs' & _ & _ & _ & Hst).
    exists s'. split; [exact Hs'|exact Hst].
  - set (calls := [mkCall Sample.entry (Sample.replying Sample.hi_there) Sample.hi;
                   mkCall Sample.entry (Sample.replying Sample.hi_there)
                     (Sample.again "0")]).
    assert (Hl : stored (demo_run calls init).2 "0"
                 = Some [message "system" Sample.default_prompt;
                         message "user" "hi"; PyStr "hi there";
                         message "user" "again"; PyStr "hi there"])
      by (vm_compute; reflexivity).
    destruct (Hrun calls "0" _ Hl) as (_ & Hlen & _).
    eexists. split; [exact Hl|].
    rewrite Hlen. vm_compute. reflexivity.
Defined.

(** *** C5 *)

(** C5 (counterexample).  When the server cannot be reached, the
    constructor of the client raises before the [try] block is entered:
    the call returns nothing, and the exception reaches the dispatcher. *)
Lemma C5_client_error_reaches_the_dispatcher :
  demo_process Sample.entry Sample.unreachable Sample.hi init
  = (inr (mkExn OSError "[Errno 111] Connection refused"), init).
Proof. vm_compute. reflexivity. Qed.

(** A call whose answer cannot be read, with the client constructed. *)
Lemma C5_remote_errors_witness :
  ∃ res s',
    demo_process Sample.entry (Sample.replying "not a dict") Sample.hi init
    = (inl res, s')
    ∧ conversation_id res = "0"
    ∧ response res
      = mkIntentResponse "en"
          (Some (Error UNKNOWN
                   ("Sorry, I had a problem talking to H2OGPT: "
                    +:+ "invalid syntax (<unknown>, line 1)"))).
Proof.
  destruct (C5_remote_errors_become_replies Sample.host_key Sample.prompt_key
              Sample.default_prompt repr_ascii Sample.raises Sample.beyond
              demo_ulid init Sample.entry (Sample.replying "not a dict")
              Sample.hi (mkClient (λ _ _, inl "not a dict")) eq_refl)
    as (res & s' & Hrun & Hcid & Herr).
  exists res, s'. split_and!; [exact Hrun|exact Hcid|].
  apply (Herr (Sample.raises "not a dict")). reflexivity.
Defined.

(** *** C8 *)

(** C8 (counterexample).  A host URL without a scheme makes [requests]
    raise [MissingSchema], and an entry without host URL raises [KeyError];
    neither is a failure to reach the host.  The setup does not end fatally
    but raises [ConfigEntryNotReady], as it does for a host that cannot be
    reached. *)
Lemma C8_other_exception_is_signalled_not_ready :
  let r := (demo_setup Sample.rejecting Sample.hass Sample.entry).1 in
  let r' := (demo_setup (Sample.answering 200) Sample.hass Sample.blank_entry).1 in
  r = inr (mkExn ConfigEntryNotReady "Invalid URL: No scheme supplied.")
  ∧ not_ready r ∧ ¬ fatal r
  ∧ r' = inr (mkExn ConfigEntryNotReady "'host_url'")
  ∧ not_ready r' ∧ ¬ fatal r'.
Proof.
  split_and!.
  - reflexivity.
  - by eexists.
  - intros [H|(e & H & Hne)]; [discriminate H|].
    injection H as <-. by apply Hne.
  - reflexivity.
  - by eexists.
  - intros [H|(e & H & Hne)]; [discriminate H|].
    injection H as <-. by apply Hne.
Qed.

(** The setup against a host that answers 503, and one that answers 200. *)
Lemma C8_setup_witness :
  demo_setup (Sample.answering 503) Sample.hass Sample.entry
  = (inr (mkExn ConfigEntryNotReady EmptyString), Sample.hass)
  ∧ ∃ hass', demo_setup (Sample.answering 200) Sample.hass Sample.entry
             = (inl true, hass')
             ∧ agents hass' !! "entry-1" = Some Sample.entry.
Proof.
  split.
  - destruct (C8_setup_outcomes Sample.host_key Sample.domain repr_ascii
                (Sample.answering 503) Sample.hass Sample.entry)
      as (_ & Hurl).
    destruct (Hurl Sample.url eq_refl) as (H & _).
    apply (H (mkResponse 503)); [reflexivity|discriminate].
  - destruct (C8_setup_outcomes Sample.host_key Sample.domain repr_ascii
                (Sample.answering 200) Sample.hass Sample.entry)
      as (_ & Hurl).
    destruct (Hurl Sample.url eq_refl) as (_ & _ & _ & H).
    destruct (H (mkResponse 200) eq_refl eq_refl) as (hass' & Hrun & Hag & _).
    exists hass'. split; [exact Hrun|exact Hag].
Defined.

(** *** C9 and C10 *)

(** C9 (counterexample).  The server answers with a [response] item that is
    itself a role/content record: the call succeeds, the record is spoken
    and stored as it is, and the last element of the stored list is a
    role/content record and no bare string. *)
Lemma C9_record_reply_is_stored_as_record :
  let r := demo_process Sample.entry (Sample.replying Sample.record_answer)
             Sample.hi init in
  r.1 = inl (speech_reply Sample.hi (message "assistant" "x") "0")
  ∧ stored r.2 "0"
    = Some [message "system" Sample.default_prompt; message "user" "hi";
            message "assistant" "x"]
  ∧ is_record <$> (stored r.2 "0" ≫= last) = Some true
  ∧ is_bare_string <$> (stored r.2 "0" ≫= last) = Some false.
Proof. split_and!; vm_compute; reflexivity. Qed.

(** The second successful call of a conversation. *)
Lemma C9_reply_witness :
  ∃ s' l,
    demo_process Sample.entry (Sample.replying Sample.hi_there)
      (Sample.again "0")
      (demo_run [mkCall Sample.entry (Sample.replying Sample.hi_there) Sample.hi]
         init).2
    = (inl (speech_reply (Sample.again "0") (PyStr "hi there") "0"), s')
    ∧ stored s' "0" = Some l
    ∧ last l = Some (PyStr "hi there")
    ∧ is_bare_string <$> last l = Some true
    ∧ is_record <$> last l = Some false
    ∧ is_record <$> head l = Some true.
Proof.
  destruct (C9_reply_is_stored_as_extracted Sample.host_key Sample.prompt_key
              Sample.default_prompt repr_ascii Sample.raises Sample.beyond
              demo_ulid demo_ulid_inj
              [mkCall Sample.entry (Sample.replying Sample.hi_there) Sample.hi]
              Sample.entry (Sample.replying Sample.hi_there) (Sample.again "0")
              (mkClient (λ _ _, inl Sample.hi_there)) (PyStr "hi there")
              eq_refl eq_refl)
    as (cid & s' & l & Hrun & Hst & _ & Hlast & Hhead & _ & _ & _ & _ & Hbare).
  assert (Hcid : cid = "0").
  { vm_compute in Hrun. injection Hrun as Hc _. by rewrite <- Hc. }
  subst cid. exists s', l.
  destruct (Hbare "hi there" eq_refl) as [Hb Hr].
  split_and!; assumption.
Defined.

(** A failed first call, then a successful call that presents its id. *)
Lemma C10_forgotten_witness :
  ∃ s1 res2 s2,
    demo_process Sample.entry (Sample.replying "not a dict") Sample.hi init
    = (inl (error_reply Sample.hi (Sample.raises "not a dict") "0"), s1)
    ∧ history s1 !! "0" = None
    ∧ demo_process Sample.entry (Sample.replying Sample.hi_there)
        (Sample.again "0") s1
      = (inl res2, s2)
    ∧ conversation_id res2 = "1"
    ∧ stored s2 "1"
      = Some [message "system" Sample.default_prompt;
              message "user" "again"; PyStr "hi there"]
    ∧ stored s2 "0" = None.
Proof.
  destruct (C10_failed_first_call_is_forgotten Sample.host_key Sample.prompt_key
              Sample.default_prompt repr_ascii Sample.raises Sample.beyond
              demo_ulid demo_ulid_inj init
              Sample.entry (Sample.replying "not a dict") Sample.hi
              (mkClient (λ _ _, inl "not a dict")) (Sample.raises "not a dict")
              Sample.entry (Sample.replying Sample.hi_there) (Sample.again "0")
              (mkClient (λ _ _, inl Sample.hi_there))
              (wf_init _) eq_refl eq_refl eq_refl eq_refl eq_refl)
    as (s1 & res2 & s2 & H1 & _ & Hnone & _ & H2 & Hcid & _ & _ & Hst & Hgone).
  exists s1, res2, s2.
  split_and!; [exact H1|exact Hnone|exact H2|exact Hcid| |exact Hgone].
  apply (Hst (PyStr "hi there")). reflexivity.
Defined.

(** *** C2, C6 and C7 on the sample objects *)

(** A host that answers 503: the check raises [HTTPError] and the wizard
    reports [cannot_connect]. *)
Lemma C2_check_connection_witness :
  check_connection (Sample.answering 503) Sample.url = inr (mkExn HTTPError EmptyString)
  ∧ demo_wizard (Sample.answering 503) (Some Sample.form)
    = inl (async_show_form "user" (Some (<["base" := "cannot_connect"]> ∅))).
Proof.
  destruct (C2_check_connection_signals Sample.host_key repr_ascii
              (Sample.answering 503) Sample.calling Sample.url)
    as (_ & Hstatus & _).
  destruct (Hstatus (mkResponse 503) eq_refl) as [Hcheck Hform]; [discriminate|].
  split; [exact Hcheck|]. apply Hform. reflexivity.
Defined.

(** The three answers of the server in a first call. *)
Lemma C6_reply_witness :
  (∃ s', demo_process Sample.entry (Sample.replying Sample.hello) Sample.hi init
         = (inl (speech_reply Sample.hi (PyStr "hello") "0"), s'))
  ∧ (∃ s', demo_process Sample.entry (Sample.replying "not a dict") Sample.hi
             init
           = (inl (error_reply Sample.hi (Sample.raises "not a dict") "0"), s'))
  ∧ (∃ s', demo_process Sample.entry (Sample.replying (dq "not a dict"))
             Sample.hi init
           = (inl (error_reply Sample.hi
                     (mkExn TypeError "string indices must be integers, not 'str'")
                     "0"), s')).
Proof.
  split_and!.
  - destruct (C6_reply_is_read_or_refused Sample.host_key Sample.prompt_key
                Sample.default_prompt repr_ascii Sample.raises Sample.beyond
                demo_ulid Sample.entry (Sample.replying Sample.hello) Sample.hi
                init) as (_ & _ & H & _).
    exact (H eq_refl).
  - destruct (C6_reply_is_read_or_refused Sample.host_key Sample.prompt_key
                Sample.default_prompt repr_ascii Sample.raises Sample.beyond
                demo_ulid Sample.entry (Sample.replying "not a dict") Sample.hi
                init) as (_ & _ & _ & _ & H & _).
    exact (H eq_refl).
  - destruct (C6_reply_is_read_or_refused Sample.host_key Sample.prompt_key
                Sample.default_prompt repr_ascii Sample.raises Sample.beyond
                demo_ulid Sample.entry (Sample.replying (dq "not a dict"))
                Sample.hi init) as (_ & _ & _ & _ & _ & _ & H).
    exact (H eq_refl).
Defined.

(** The one request of a first call with the built-in prompt context. *)
Lemma C7_request_witness :
  rpc_log (demo_process Sample.entry (Sample.replying Sample.hi_there)
             Sample.hi init).2
  = [request_of repr_ascii (prompt_of Sample.default_prompt "hi")].
Proof.
  destruct (C7_one_request_per_utterance Sample.host_key Sample.prompt_key
              Sample.default_prompt repr_ascii Sample.raises Sample.beyond
              demo_ulid (mkClient (λ _ _, inl Sample.hi_there)) "hi"
              Sample.default_prompt init) as (_ & _ & _ & H).
  exact (H Sample.entry (Sample.replying Sample.hi_there) Sample.hi init
           eq_refl eq_refl eq_refl).
Defined.

(** ** The further properties on the sample objects *)

Local Abbreviation demo_step :=
  (process Sample.host_key Sample.prompt_key Sample.default_prompt
     repr_ascii Sample.raises Sample.beyond demo_ulid).
Local Abbreviation demo_unload :=
  (async_unload_entry Sample.domain repr_ascii).
Local Abbreviation demo_options :=
  (async_step_init Sample.prompt_key Sample.default_prompt repr_ascii).
Local Abbreviation demo_first :=
  (mkCall Sample.entry (Sample.replying Sample.hi_there) Sample.hi).
Local Abbreviation demo_after_first :=
  (demo_process Sample.entry (Sample.replying Sample.hi_there) Sample.hi init).2.

(** A failed and a successful call extend the list of the conversation. *)
Lemma stored_lists_only_grow_witness :
  ∃ tail,
    stored (demo_run [mkCall Sample.entry Sample.failing (Sample.again "0");
                      mkCall Sample.entry (Sample.replying Sample.hello)
                        (Sample.again "0")]
              demo_after_first).2 "0"
    = Some ([message "system" Sample.default_prompt; message "user" "hi";
             PyStr "hi there"] ++ tail).
Proof.
  apply (stored_lists_only_grow Sample.host_key Sample.prompt_key
           Sample.default_prompt repr_ascii Sample.raises Sample.beyond
           demo_ulid demo_ulid_inj _ demo_after_first "0" _ demo_wf_after_first).
  vm_compute. reflexivity.
Defined.

(** A call that starts a second conversation leaves the first alone. *)
Lemma call_touches_one_conversation_witness :
  stored (demo_step (mkCall Sample.entry (Sample.replying Sample.hello) Sample.hi)
            demo_after_first).2 "0"
  = stored demo_after_first "0".
Proof.
  apply (call_touches_one_conversation Sample.host_key Sample.prompt_key
           Sample.default_prompt repr_ascii Sample.raises Sample.beyond
           demo_ulid demo_ulid_inj _ demo_after_first "0" demo_wf_after_first).
  intros res Hres. vm_compute in Hres. injection Hres as <-. discriminate.
Defined.

(** After a failed first call and a successful second one, the second
    conversation is stored and the first is not. *)
Lemma stored_iff_answered_witness :
  is_Some (stored (demo_run [mkCall Sample.entry Sample.failing Sample.hi;
                             demo_first] init).2 "1")
  ∧ stored (demo_run [mkCall Sample.entry Sample.failing Sample.hi;
                      demo_first] init).2 "0" = None.
Proof.
  split.
  - apply (stored_iff_answered Sample.host_key Sample.prompt_key
             Sample.default_prompt repr_ascii Sample.raises Sample.beyond
             demo_ulid demo_ulid_inj).
    vm_compute. lia.
  - destruct (stored _ "0") as [l|] eqn:Hl; [|reflexivity].
    exfalso.
    assert (H : 0 < successes "0"
                  (demo_run [mkCall Sample.entry Sample.failing Sample.hi;
                             demo_first] init).1).
    { apply (stored_iff_answered Sample.host_key Sample.prompt_key
               Sample.default_prompt repr_ascii Sample.raises Sample.beyond
               demo_ulid demo_ulid_inj). rewrite Hl. by eexists. }
    vm_compute in H. lia.
Defined.

(** A caller that presents an id of its own gets a conversation under the
    generator's id; nothing is stored under the presented one. *)
Lemma stored_ids_are_minted_witness :
  stored (demo_run [mkCall Sample.entry (Sample.replying Sample.hello)
                      (Sample.again "my-own-id")] init).2 "my-own-id" = None.
Proof.
  destruct (stored _ "my-own-id") as [l|] eqn:Hl; [|reflexivity].
  exfalso.
  destruct (stored_ids_are_minted Sample.host_key Sample.prompt_key
              Sample.default_prompt repr_ascii Sample.raises Sample.beyond
              demo_ulid demo_ulid_inj
              [mkCall Sample.entry (Sample.replying Sample.hello)
                 (Sample.again "my-own-id")] "my-own-id")
    as (k & Hk & Heq); [rewrite Hl; by eexists|].
  simpl in Hk. assert (k = 0) as -> by lia. discriminate Heq.
Defined.

(** The second conversation of an agent gets another id than the first. *)
Lemma minted_id_is_new_witness :
  conversation_id (speech_reply Sample.hi (PyStr "hi there") "0")
  ≠ conversation_id (speech_reply Sample.hi (PyStr "hello") "1").
Proof.
  apply (minted_id_is_new Sample.host_key Sample.prompt_key
           Sample.default_prompt repr_ascii Sample.raises Sample.beyond
           demo_ulid demo_ulid_inj [demo_first]
           (mkCall Sample.entry (Sample.replying Sample.hello) Sample.hi)
           _ demo_first).
  - reflexivity.
  - vm_compute. reflexivity.
  - vm_compute. left.
Defined.

(** The requests of a run of three calls, the second of which cannot
    connect. *)
Lemma requests_of_a_run_witness :
  rpc_log (demo_run [demo_first;
                     mkCall Sample.entry Sample.unreachable (Sample.again "0");
                     mkCall Sample.brief_entry Sample.failing (Sample.again "0")]
             init).2
  = [request_of repr_ascii (prompt_of Sample.default_prompt "hi");
     request_of repr_ascii (prompt_of "Be brief." "again")].
Proof.
  rewrite (requests_of_a_run Sample.host_key Sample.prompt_key
             Sample.default_prompt repr_ascii Sample.raises Sample.beyond
             demo_ulid).
  reflexivity.
Defined.

(** The options form submitted with a prompt context. *)
Lemma submitted_prompt_context_witness :
  ∃ r,
    demo_options Sample.entry (Some Sample.brief_options) = inl r
    ∧ prompt_context Sample.prompt_key Sample.default_prompt
        (with_options Sample.entry r) = "Be brief."
    ∧ demo_options (with_options Sample.entry r) None
      = inl (options_show_form "init"
               [mkField Sample.prompt_key "Be brief." Sample.default_prompt]).
Proof.
  destruct (submitted_prompt_context_is_used Sample.prompt_key
              Sample.default_prompt repr_ascii Sample.entry
              Sample.brief_options "Be brief." eq_refl)
    as (r & Hr & _ & Hp & _ & Hform).
  exists r. split_and!; [exact Hr|exact Hp|exact Hform].
Defined.

(** A conversation started under the built-in prompt context and resumed
    after the options were edited. *)
Lemma resumed_session_witness :
  ∃ tail,
    stored (demo_process Sample.brief_entry (Sample.replying Sample.hello)
              (Sample.again "0") demo_after_first).2 "0"
    = Some (message "system" Sample.default_prompt
            :: [message "user" "hi"; PyStr "hi there"] ++ tail)
    ∧ rpc_log (demo_process Sample.brief_entry (Sample.replying Sample.hello)
                 (Sample.again "0") demo_after_first).2
      = rpc_log demo_after_first
        ++ [request_of repr_ascii (prompt_of "Be brief." "again")].
Proof.
  apply (resumed_session_keeps_its_system_message Sample.host_key
           Sample.prompt_key Sample.default_prompt repr_ascii Sample.raises
           Sample.beyond demo_ulid demo_ulid_inj demo_after_first
           Sample.brief_entry (Sample.replying Sample.hello) (Sample.again "0")
           (mkClient (λ _ _, inl Sample.hello)) "0"
           _ _ demo_wf_after_first eq_refl).
  - vm_compute. reflexivity.
  - reflexivity.
Defined.

(** The error reply of a call whose request fails. *)
Lemma results_echo_the_language_witness :
  language (response (error_reply Sample.hi (mkExn OSError "timed out") "0"))
  = "en".
Proof.
  apply (results_echo_the_language Sample.host_key Sample.prompt_key
           Sample.default_prompt repr_ascii Sample.raises Sample.beyond
           demo_ulid Sample.entry Sample.failing Sample.hi init).
  vm_compute. reflexivity.
Defined.

(** Setup and unload of the sample entry on an empty platform. *)
Lemma unload_after_setup_witness :
  ∃ hass1 hass2,
    demo_setup (Sample.answering 200) Sample.hass Sample.entry = (inl true, hass1)
    ∧ demo_unload hass1 Sample.entry = (inl true, hass2)
    ∧ agents hass2 !! "entry-1" = None
    ∧ hass_data hass2 !! Sample.domain = Some ∅.
Proof.
  destruct (unload_after_setup Sample.host_key Sample.domain repr_ascii
              (Sample.answering 200) Sample.hass Sample.entry Sample.url
              (mkResponse 200) eq_refl eq_refl eq_refl)
    as (hass1 & hass2 & H1 & H2 & _ & Hdata & Hag & _).
  exists hass1, hass2. split_and!; [exact H1|exact H2|exact Hag|].
  rewrite Hdata. reflexivity.
Defined.

(** Unloading on a platform where nothing was set up. *)
Lemma unload_without_setup_witness :
  ∃ e, demo_unload Sample.hass Sample.entry = (inr e, Sample.hass)
       ∧ exn_cls e = KeyError.
Proof.
  apply (unload_without_setup_raises Sample.domain repr_ascii Sample.hass
           Sample.entry).
  reflexivity.
Defined.

(** A failed setup of one entry beside another that is set up. *)
Lemma other_entries_are_kept_witness :
  agents (demo_setup Sample.refusing
            (demo_setup (Sample.answering 200) Sample.hass Sample.other_entry).2
            Sample.entry).2 !! "entry-3"
  = Some Sample.other_entry.
Proof.
  destruct (other_entries_are_kept Sample.host_key Sample.domain repr_ascii
              Sample.refusing
              (demo_setup (Sample.answering 200) Sample.hass Sample.other_entry).2
              Sample.entry "entry-3") as [[Hag _] _]; [discriminate|].
  rewrite Hag. reflexivity.
Defined.
